(** * mackerel-plugin-aws-lambda: the metric retrieval and transformation core

    A shallow embedding of [getLastPointFromCloudWatch], [TransformMetrics]
    and [FetchMetrics] of the plugin's library package, with the theorems
    that settle what its specification says about them.

    Go values are modelled as follows.
    - [map[string]interface{}] is a [gmap string any]; the Go map is updated
      in place and returned, the model returns the updated map.
    - [float64] is Rocq's primitive binary64 float, so [totalCount - errorCount]
      is the IEEE subtraction the Go program performs.
    - a pointer that may be nil is an [option].
    - a nil dereference ends the run: [Panic].
    - [time.Now], [log.Printf] and the CloudWatch client act on an explicit
      system state [Sys]. *)

From Stdlib Require Import ZArith Floats Ascii.
From stdpp Require Import gmap strings list fin_maps.

Local Open Scope string_scope.
Local Open Scope list_scope.
Local Open Scope Z_scope.

(** ** time.Time

    An instant of package [time], as the wall-clock comparison of two
    instants sees it: the count of nanoseconds since the zero instant,
    January 1, year 1, 00:00:00 UTC.  Instants decoded from a CloudWatch
    response and the zero [Time] carry no monotonic clock reading, so
    [Before] compares exactly this count. *)
Module time.

Record Time := mkTime { nanos : Z }.

(** [new(time.Time)], the zero instant. *)
Definition zero : Time := mkTime 0.

(** [func (t Time) Before(u Time) bool]. *)
Definition Before (t u : Time) : bool := nanos t <? nanos u.

(** A [Duration] is a count of nanoseconds. *)
Definition Duration := Z.
Definition Second : Duration := 1000000000.

(** [func (t Time) Add(d Duration) Time]. *)
Definition Add (t : Time) (d : Duration) : Time := mkTime (nanos t + d).

End time.

(** ** Values of the Go program *)

(** The dynamic values an [interface{}] of the statistics map can hold. *)
Inductive any : Type :=
  | Float64 (f : float)
  | Int (n : Z)
  | Str (s : string)
  | Nil.

(** [x.(float64)] with its [ok] result. *)
Definition as_float64 (x : option any) : option float :=
  match x with
  | Some (Float64 f) => Some f
  | _ => None
  end.

(** An [error] as a caller observes it: its dynamic type and its message.
    [errors_New] is what [errors.New] builds. *)
Inductive error : Type :=
  | errors_New (text : string)
  | awserr_New (code message : string).

Definition namespace : string := "AWS/Lambda".
Definition metricsTypeAverage : string := "Average".
Definition metricsTypeSum : string := "Sum".
Definition metricsTypeMaximum : string := "Maximum".
Definition metricsTypeMinimum : string := "Minimum".

Record metric := mkMetric { MackerelName : string; Type_ : string }.

(** [metricsGroup]: one CloudWatch MetricName and the Mackerel metrics
    read from it. *)
Record metricsGroup := mkGroup { CloudWatchName : string; Metrics : list metric }.

(** ** The CloudWatch SDK types the plugin touches

    Every field of a [Datapoint] is a pointer in the SDK, hence an option
    here.  The elements of the [Datapoints] slice are pointers too; the
    SDK allocates each of them, and a nil element is not modelled. *)
Module cloudwatch.

Record Datapoint := mkDatapoint {
  Average : option float;
  Maximum : option float;
  Minimum : option float;
  Sum : option float;
  Timestamp : option time.Time
}.

Record Dimension := mkDimension { Name : string; Value : string }.

Record GetMetricStatisticsInput := mkInput {
  Dimensions : list Dimension;
  StartTime : time.Time;
  EndTime : time.Time;
  MetricName : string;
  Period : Z;
  Statistics : list string;
  Namespace : string
}.

Record GetMetricStatisticsOutput := mkOutput {
  Label : option string;
  Datapoints : list Datapoint
}.

End cloudwatch.

(** [cloudwatchiface.CloudWatchAPI], as far as the plugin uses it: one call,
    which answers with a response pointer and an error and may change the
    client (the test suite's mock counts its requests). *)
Class CloudWatchAPI (C : Type) := GetMetricStatistics :
  C -> cloudwatch.GetMetricStatisticsInput ->
  (option cloudwatch.GetMetricStatisticsOutput * option error) * C.

(** ** TransformMetrics *)

Definition total_key : string := "TEMPORARY_invocations_total".
Definition error_key : string := "invocations_error".
Definition success_key : string := "invocations_success".

(** [TransformMetrics] converts some of the datapoints to post the
    difference of two metrics. *)
Definition TransformMetrics (stats : gmap string any) : gmap string any :=
  match as_float64 (stats !! total_key) with
  | Some totalCount =>
      let stats1 :=
        match as_float64 (stats !! error_key) with
        | Some errorCount => <[success_key := Float64 (totalCount - errorCount)%float]> stats
        | None => <[success_key := Float64 totalCount]> stats
        end in
      delete total_key stats1
  | None => stats
  end.

(** ** Effects *)

(** The outcome of a piece of Go code that can panic. *)
Inductive res (A : Type) : Type :=
  | Val (a : A)
  | Panic.
Arguments Val {A} a.
Arguments Panic {A}.

#[global] Instance res_ret : MRet res := fun A a => Val a.
#[global] Instance res_bind : MBind res := fun A B f r =>
  match r with
  | Val a => f a
  | Panic => Panic
  end.

(** What a run acts on besides its arguments. *)
Record Sys (C : Type) := mkSys {
  cw : C;                     (* the client [p.CloudWatch], set up by [prepare] *)
  clock : nat -> time.Time;   (* the n-th reading of the wall clock *)
  ticks : nat;                (* readings taken so far *)
  sent : list cloudwatch.GetMetricStatisticsInput;
                              (* requests issued so far, oldest first *)
  logged : list (metricsGroup * error)
                              (* lines written by [log.Printf], oldest first *)
}.
Arguments mkSys {C}.
Arguments cw {C}.
Arguments clock {C}.
Arguments ticks {C}.
Arguments sent {C}.
Arguments logged {C}.

Definition M (C A : Type) : Type := Sys C -> res A * Sys C.

#[global] Instance M_ret C : MRet (M C) := fun A a s => (Val a, s).
#[global] Instance M_bind C : MBind (M C) := fun A B f m s =>
  match m s with
  | (Val a, s') => f a s'
  | (Panic, s') => (Panic, s')
  end.

(** Pure code that can panic, run inside a stateful computation. *)
Definition lift {C A} (r : res A) : M C A := fun s => (r, s).

(** [time.Now()]. *)
Definition time_Now {C} : M C time.Time := fun s =>
  (Val (clock s (ticks s)),
   mkSys (cw s) (clock s) (S (ticks s)) (sent s) (logged s)).

(** [log.Printf("%s: %s", met, err)]. *)
Definition log_Printf {C} (met : metricsGroup) (err : error) : M C unit := fun s =>
  (Val tt, mkSys (cw s) (clock s) (ticks s) (sent s) (logged s ++ [(met, err)])).

(** [cw.GetMetricStatistics(input)] on the client of the run. *)
Definition cw_GetMetricStatistics {C} `{CloudWatchAPI C}
    (input : cloudwatch.GetMetricStatisticsInput)
    : M C (option cloudwatch.GetMetricStatisticsOutput * option error) := fun s =>
  let '(r, c) := GetMetricStatistics (cw s) input in
  (Val r, mkSys c (clock s) (ticks s) (sent s ++ [input]) (logged s)).

(** ** getLastPointFromCloudWatch *)

(** The request the function builds from its arguments and the clock
    reading [now]. *)
Definition statisticsInput (now : time.Time) (functionName : string)
    (metric : metricsGroup) : cloudwatch.GetMetricStatisticsInput :=
  let statsInput := map Type_ (Metrics metric) in
  cloudwatch.mkInput
    [cloudwatch.mkDimension "FunctionName" functionName]
    (time.Add now (180 * time.Second * -1))
    now
    (CloudWatchName metric)
    600
    statsInput
    namespace.

(** The loop over [datapoints]: [latest] and [latestDp] are the loop's two
    variables.  A datapoint whose [Timestamp] pointer is nil makes
    [dp.Timestamp.Before] panic. *)
Fixpoint lastPointLoop (datapoints : list cloudwatch.Datapoint)
    (latest : time.Time) (latestDp : option cloudwatch.Datapoint)
    : res (option cloudwatch.Datapoint) :=
  match datapoints with
  | [] => Val latestDp
  | dp :: rest =>
      match cloudwatch.Timestamp dp with
      | None => Panic
      | Some ts =>
          if time.Before ts latest then lastPointLoop rest latest latestDp
          else lastPointLoop rest ts (Some dp)
      end
  end.

(** The loop with its initial values: [latest := new(time.Time)] and
    [var latestDp *cloudwatch.Datapoint]. *)
Definition lastPoint (datapoints : list cloudwatch.Datapoint)
    : res (option cloudwatch.Datapoint) :=
  lastPointLoop datapoints time.zero None.

(** [getLastPointFromCloudWatch] fetches a CloudWatch metric and picks a
    datapoint; the result is the Go pair of a [*cloudwatch.Datapoint] and an
    [error]. *)
Definition getLastPointFromCloudWatch {C} `{CloudWatchAPI C}
    (functionName : string) (metric : metricsGroup)
    : M C (option cloudwatch.Datapoint * option error) :=
  now ← time_Now;
  '(response, err) ← cw_GetMetricStatistics (statisticsInput now functionName metric);
  match err with
  | Some e => mret (None, Some e)
  | None =>
      match response with
      | None => lift Panic
      | Some response =>
          let datapoints := cloudwatch.Datapoints response in
          if (length datapoints =? 0)%nat
          then mret (None, Some (errors_New "fetched no datapoints"))
          else latestDp ← lift (lastPoint datapoints); mret (latestDp, None)
      end
  end.

(** ** FetchMetrics *)

Record LambdaPlugin := mkPlugin {
  FunctionName : string;
  Prefix : string;
  AccessKeyID : string;
  SecretAccessKey : string;
  Region : string
}.

(** The array literal [FetchMetrics] ranges over. *)
Definition metricsGroups : list metricsGroup :=
  [ mkGroup "Invocations" [mkMetric "TEMPORARY_invocations_total" metricsTypeSum];
    mkGroup "Errors" [mkMetric "invocations_error" metricsTypeSum];
    mkGroup "Throttles" [mkMetric "invocations_throttles" metricsTypeSum];
    mkGroup "Duration" [mkMetric "duration_avg" metricsTypeAverage;
                        mkMetric "duration_max" metricsTypeMaximum;
                        mkMetric "duration_min" metricsTypeMinimum] ].

(** [stat[name] = *v.f]: both [v] and the field [f] are pointers. *)
Definition storeField (stat : gmap string any) (name : string)
    (v : option cloudwatch.Datapoint) (f : cloudwatch.Datapoint -> option float)
    : res (gmap string any) :=
  match v with
  | None => Panic
  | Some dp =>
      match f dp with
      | None => Panic
      | Some x => Val (<[name := Float64 x]> stat)
      end
  end.

(** The [switch typ.Type] of the inner loop. *)
Definition mergeStat (v : option cloudwatch.Datapoint) (stat : gmap string any)
    (typ : metric) : res (gmap string any) :=
  if String.eqb (Type_ typ) metricsTypeAverage then
    storeField stat (MackerelName typ) v cloudwatch.Average
  else if String.eqb (Type_ typ) metricsTypeSum then
    storeField stat (MackerelName typ) v cloudwatch.Sum
  else if String.eqb (Type_ typ) metricsTypeMaximum then
    storeField stat (MackerelName typ) v cloudwatch.Maximum
  else if String.eqb (Type_ typ) metricsTypeMinimum then
    storeField stat (MackerelName typ) v cloudwatch.Minimum
  else Val stat.

Fixpoint mergeLoop (stat : gmap string any) (v : option cloudwatch.Datapoint)
    (types : list metric) : res (gmap string any) :=
  match types with
  | [] => Val stat
  | typ :: rest => stat' ← mergeStat v stat typ; mergeLoop stat' v rest
  end.

(** The inner loop of [FetchMetrics], [for _, typ := range met.Metrics];
    the test suite calls it [mergeStatsFromDatapoint]. *)
Definition mergeStatsFromDatapoint (stats : gmap string any)
    (dp : option cloudwatch.Datapoint) (mg : metricsGroup) : res (gmap string any) :=
  mergeLoop stats dp (Metrics mg).

(** One round of the outer loop of [FetchMetrics]. *)
Definition fetchGroup {C} `{CloudWatchAPI C} (functionName : string)
    (stat : gmap string any) (met : metricsGroup) : M C (gmap string any) :=
  '(v, err) ← getLastPointFromCloudWatch functionName met;
  match err with
  | None => lift (mergeStatsFromDatapoint stat v met)
  | Some e => _ ← log_Printf met e; mret stat
  end.

Fixpoint fetchLoop {C} `{CloudWatchAPI C} (functionName : string)
    (stat : gmap string any) (mets : list metricsGroup) : M C (gmap string any) :=
  match mets with
  | [] => mret stat
  | met :: rest =>
      stat' ← fetchGroup functionName stat met; fetchLoop functionName stat' rest
  end.

(** [FetchMetrics] fetches the metrics; its Go result is the pair
    [(map[string]interface{}, error)]. *)
Definition FetchMetrics {C} `{CloudWatchAPI C} (p : LambdaPlugin)
    : M C (gmap string any * option error) :=
  stat ← fetchLoop (FunctionName p) ∅ metricsGroups;
  mret (TransformMetrics stat, None).

(** ** Clients used by the examples *)

(** A client that replays a fixed list of answers, one per request, and
    reports a transport failure once the list is used up. *)
Definition script : Type :=
  list (option cloudwatch.GetMetricStatisticsOutput * option error).

#[global] Instance script_api : CloudWatchAPI script := fun c _ =>
  match c with
  | [] => ((None, Some (awserr_New "RequestError" "send request failed")), [])
  | r :: rest => (r, rest)
  end.

(** A wall clock that starts at [t0] and advances one second per reading. *)
Definition ticking (t0 : Z) : nat -> time.Time := fun n =>
  time.mkTime ((t0 + Z.of_nat n) * time.Second).

Definition start {C} (c : C) (t0 : Z) : Sys C := mkSys c (ticking t0) 0 [] [].

Definition sumPoint (x : float) (ts : time.Time) : cloudwatch.Datapoint :=
  cloudwatch.mkDatapoint None None None (Some x) (Some ts).

Definition durationPoint (avg max min : float) (ts : time.Time) : cloudwatch.Datapoint :=
  cloudwatch.mkDatapoint (Some avg) (Some max) (Some min) None (Some ts).

Definition answer (dps : list cloudwatch.Datapoint)
    : option cloudwatch.GetMetricStatisticsOutput * option error :=
  (Some (cloudwatch.mkOutput None dps), None).

(** A datapoint carries a timestamp that is, or is not, before [t]. *)
Definition stamped_before (t : time.Time) (dp : cloudwatch.Datapoint) : Prop :=
  ∃ ts, cloudwatch.Timestamp dp = Some ts ∧ time.Before ts t = true.

Definition stamped_not_before (t : time.Time) (dp : cloudwatch.Datapoint) : Prop :=
  ∃ ts, cloudwatch.Timestamp dp = Some ts ∧ time.Before ts t = false.

(** The mock client of the test suite.  It counts its requests, refuses a
    request whose dimensions or statistics are not the expected ones, and
    answers with three datapoints placed around its own clock reading
    [mockNow]. *)
Record mockCloudWatchClient := mkMock { mockNow : time.Time; RequestedCount : nat }.

#[global] Instance Dimension_eq_dec : EqDecision cloudwatch.Dimension.
Proof. solve_decision. Defined.

#[global] Instance mock_api : CloudWatchAPI mockCloudWatchClient := fun m input =>
  let m' := mkMock (mockNow m) (S (RequestedCount m)) in
  let expectedDimensions := [cloudwatch.mkDimension "FunctionName" "myFunction"] in
  if negb (bool_decide (expectedDimensions = cloudwatch.Dimensions input))
  then ((None, Some (errors_New "Unexpected Dimension")), m')
  else
    let expectedStatistics :=
      if String.eqb (cloudwatch.MetricName input) "Duration"
      then ["Average"; "Maximum"; "Minimum"] else ["Sum"] in
    if negb (bool_decide (expectedStatistics = cloudwatch.Statistics input))
    then ((None, Some (errors_New "Wrong Statistics")), m')
    else
      let now := mockNow m in
      let datapoints :=
        if String.eqb (cloudwatch.MetricName input) "Duration"
        then [durationPoint 30 50 10 now;
              durationPoint 25 45 5 (time.Add now (60 * time.Second * 1));
              durationPoint 35 55 15 (time.Add now (60 * time.Second * -1))]
        else [sumPoint 30 now;
              sumPoint 25 (time.Add now (60 * time.Second * 1));
              sumPoint 35 (time.Add now (60 * time.Second * -1))] in
      ((Some (cloudwatch.mkOutput (Some (cloudwatch.MetricName input)) datapoints), None), m').

(** A client that answers every request with one and the same datapoint,
    which has all four statistics. *)
Inductive steady : Type := Steady.

Definition steadyPoint : cloudwatch.Datapoint :=
  cloudwatch.mkDatapoint (Some 25%float) (Some 45%float) (Some 5%float) (Some 150%float)
    (Some (time.mkTime 900)).

#[global] Instance steady_api : CloudWatchAPI steady := fun c _ =>
  (answer [steadyPoint], c).

(** ** The rest of the package: prepare, MetricKeyPrefix, GraphDefinition *)

(** The part of [aws.Config] the plugin sets. *)
Module aws.

(** [credentials.NewStaticCredentials(id, secret, token)]. *)
Record StaticCredentials := NewStaticCredentials {
  CredAccessKeyID : string;
  CredSecretAccessKey : string;
  SessionToken : string
}.

Record Config := mkConfig {
  Credentials : option StaticCredentials;
  Region : option string
}.

Definition NewConfig : Config := mkConfig None None.

Definition WithCredentials (c : Config) (creds : StaticCredentials) : Config :=
  mkConfig (Some creds) (Region c).

Definition WithRegion (c : Config) (region : string) : Config :=
  mkConfig (Credentials c) (Some region).

End aws.

(** What [cloudwatch.New(sess, cfgs...)] is built from. *)
Record CloudWatchClient (Session : Type) := cloudwatch_New {
  clientSession : Session;
  clientConfigs : list aws.Config
}.
Arguments cloudwatch_New {Session}.
Arguments clientSession {Session}.
Arguments clientConfigs {Session}.

(** [prepare] creates the CloudWatch instance.  [NewSession] is the outcome
    of [session.NewSession()], and [cw0] the value of [p.CloudWatch] before
    the call; the result is [p.CloudWatch] after the call and the error
    returned. *)
Definition prepare {Session} (NewSession : Session + error) (p : LambdaPlugin)
    (cw0 : option (CloudWatchClient Session))
    : option (CloudWatchClient Session) * option error :=
  match NewSession with
  | inr err => (cw0, Some err)
  | inl sess =>
      let config := aws.NewConfig in
      let config :=
        if negb (String.eqb (AccessKeyID p) "") && negb (String.eqb (SecretAccessKey p) "")
        then aws.WithCredentials config
               (aws.NewStaticCredentials (AccessKeyID p) (SecretAccessKey p) "")
        else config in
      let config :=
        if negb (String.eqb (Region p) "") then aws.WithRegion config (Region p)
        else config in
      (Some (cloudwatch_New sess [config]), None)
  end.

(** [MetricKeyPrefix], the interface method for [PluginWithPrefix]. *)
Definition MetricKeyPrefix (p : LambdaPlugin) : string := Prefix p.

(** [mp.Graphs] and [mp.Metrics] of go-mackerel-plugin-helper, with the
    fields the plugin sets.  Both Go structs have a field [Label]; the one
    of [Graphs] is [GraphLabel] here, and its [Metrics] is [GraphMetrics]. *)
Module mp.

Record Metrics := mkMetrics { Name : string; Label : string; Stacked : bool }.

Record Graphs := mkGraphs {
  GraphLabel : string;
  Unit : string;
  GraphMetrics : list Metrics
}.

End mp.

(** [GraphDefinition] of the plugin.  [strings_Title] stands for
    [strings.Title] of the Go library. *)
Definition GraphDefinition (strings_Title : string -> string) (p : LambdaPlugin)
    : gmap string mp.Graphs :=
  let labelPrefix := strings_Title (Prefix p) in
  {[ "invocations" :=
       mp.mkGraphs (labelPrefix +:+ " Invocations") "integer"
         [mp.mkMetrics "invocations_success" "Success" true;
          mp.mkMetrics "invocations_error" "Error" true;
          mp.mkMetrics "invocations_throttles" "Throttles" true];
     "duration" :=
       mp.mkGraphs (labelPrefix +:+ " Duration") "float"
         [mp.mkMetrics "duration_avg" "Average" false;
          mp.mkMetrics "duration_max" "Maximum" false;
          mp.mkMetrics "duration_min" "Minimum" false] ]}.

(** ** The command of src/unnamed/part_000 (package main)

    Its [getLastPoint] method has the body of [getLastPointFromCloudWatch],
    with [p.CloudWatch] and [p.FunctionName] for the two arguments; its
    [prepare] and [MetricKeyPrefix] are the ones above. *)
Module v2.

Definition metricsGroups : list metricsGroup :=
  [ mkGroup "Invocations" [mkMetric "invocations_total" metricsTypeSum];
    mkGroup "Errors" [mkMetric "invocations_error" metricsTypeSum];
    mkGroup "Throttles" [mkMetric "invocations_throttles" metricsTypeSum];
    mkGroup "Duration" [mkMetric "duration_avg" metricsTypeAverage;
                        mkMetric "duration_max" metricsTypeMaximum;
                        mkMetric "duration_min" metricsTypeMinimum] ].

(** [FetchMetrics]: the same two loops, and the record returned as it is. *)
Definition FetchMetrics {C} `{CloudWatchAPI C} (p : LambdaPlugin)
    : M C (gmap string any * option error) :=
  stat ← fetchLoop (FunctionName p) ∅ metricsGroups;
  mret (stat, None).

Definition GraphDefinition (strings_Title : string -> string) (p : LambdaPlugin)
    : gmap string mp.Graphs :=
  let labelPrefix := strings_Title (Prefix p) in
  {[ "invocations" :=
       mp.mkGraphs (labelPrefix +:+ " Invocations") "integer"
         [mp.mkMetrics "invocations_total" "Total" false;
          mp.mkMetrics "invocations_error" "Error" false;
          mp.mkMetrics "invocations_throttles" "Throttles" false];
     "duration" :=
       mp.mkGraphs (labelPrefix +:+ " Duration") "float"
         [mp.mkMetrics "duration_avg" "Average" false;
          mp.mkMetrics "duration_max" "Maximum" false;
          mp.mkMetrics "duration_min" "Minimum" false] ]}.

End v2.

(** ** The command of src/aws-lambda.go (package main)

    Its [getLastPoint] and [FetchMetrics] are those of [v2], with the field
    [Name] for [FunctionName]. *)
Module v1.

Record LambdaPlugin := mkPlugin {
  Name : string;
  Prefix : string;
  Region : string
}.

(** The receiver is a copy: the default does not reach the caller's
    plugin. *)
Definition MetricKeyPrefix (p : LambdaPlugin) : string :=
  let p := if String.eqb (Prefix p) "" then mkPlugin (Name p) "lambda" (Region p) else p in
  Prefix p.

Definition prepare {Session} (NewSession : Session + error) (p : LambdaPlugin)
    (cw0 : option (CloudWatchClient Session))
    : option (CloudWatchClient Session) * option error :=
  match NewSession with
  | inr err => (cw0, Some err)
  | inl sess =>
      if negb (String.eqb (Region p) "")
      then (Some (cloudwatch_New sess [aws.WithRegion aws.NewConfig (Region p)]), None)
      else (Some (cloudwatch_New sess []), None)
  end.

(** [strings.Replace(s, old, new, -1)] for an [old] and a [new] of one
    byte each. *)
Fixpoint strings_Replace1 (s : string) (old new : Ascii.ascii) : string :=
  match s with
  | EmptyString => EmptyString
  | String c rest =>
      String (if Ascii.eqb c old then new else c) (strings_Replace1 rest old new)
  end.

Definition GraphDefinition (strings_Title : string -> string) (p : LambdaPlugin)
    : gmap string mp.Graphs :=
  let labelPrefix := strings_Title (Prefix p) in
  let labelPrefix := strings_Replace1 labelPrefix "-"%char " "%char in
  {[ "invocations" :=
       mp.mkGraphs (labelPrefix +:+ " Invocations") "integer"
         [mp.mkMetrics "invocations_total" "Total" false;
          mp.mkMetrics "invocations_error" "Error" false;
          mp.mkMetrics "invocations_throttles" "Throttles" false];
     "duration" :=
       mp.mkGraphs (labelPrefix +:+ " Duration") "float"
         [mp.mkMetrics "duration_avg" "Average" false;
          mp.mkMetrics "duration_max" "Maximum" false;
          mp.mkMetrics "duration_min" "Minimum" false] ]}.

End v1.

(** ** Notions used by the statements *)

(** What the loop variables say about the datapoints [pre] seen so far. *)
Definition loop_inv (pre : list cloudwatch.Datapoint) (latest : time.Time)
    (latestDp : option cloudwatch.Datapoint) : Prop :=
  match latestDp with
  | None => latest = time.zero ∧ Forall (stamped_before time.zero) pre
  | Some dp =>
      ∃ i : nat,
        pre !! i = Some dp ∧ cloudwatch.Timestamp dp = Some latest ∧
        (∀ (j : nat) dpj tj, pre !! j = Some dpj → cloudwatch.Timestamp dpj = Some tj →
           time.Before latest tj = false ∧ ((i < j)%nat → time.Before tj latest = true))
  end.

(** The state after one request [input] that left the client as [c]. *)
Definition after_call {C} (s : Sys C) (input : cloudwatch.GetMetricStatisticsInput)
    (c : C) : Sys C :=
  mkSys c (clock s) (S (ticks s)) (sent s ++ [input]) (logged s).

(** What the function makes of the client's answer. *)
Definition of_answer
    (a : option cloudwatch.GetMetricStatisticsOutput * option error)
    : res (option cloudwatch.Datapoint * option error) :=
  match a with
  | (_, Some e) => Val (None, Some e)
  | (None, None) => Panic
  | (Some response, None) =>
      match cloudwatch.Datapoints response with
      | [] => Val (None, Some (errors_New "fetched no datapoints"))
      | datapoints =>
          match lastPoint datapoints with
          | Val latestDp => Val (latestDp, None)
          | Panic => Panic
          end
      end
  end.

(** The state after the line [log.Printf] writes for a failed fetch. *)
Definition log_line {C} (s : Sys C) (met : metricsGroup) (e : error) : Sys C :=
  mkSys (cw s) (clock s) (ticks s) (sent s) (logged s ++ [(met, e)]).

(** A record in which every value is a [float64], as the values read from
    a [cloudwatch.Datapoint] are. *)
Definition float64_record (stats : gmap string any) : Prop :=
  ∀ k x, stats !! k = Some x → ∃ f, x = Float64 f.

(** The names the groups of the array write. *)
Definition group_names : list string :=
  ["TEMPORARY_invocations_total"; "invocations_error"; "invocations_throttles";
   "duration_avg"; "duration_max"; "duration_min"].

(** The names a run of [FetchMetrics] can return. *)
Definition output_names : list string :=
  ["invocations_success"; "invocations_error"; "invocations_throttles";
   "duration_avg"; "duration_max"; "duration_min"].

(** The field of a datapoint that the [switch] of the inner loop reads for
    [typ]; none for a [Type] that is not one of the four. *)
Definition statistic (typ : metric) : option (cloudwatch.Datapoint -> option float) :=
  if String.eqb (Type_ typ) metricsTypeAverage then Some cloudwatch.Average
  else if String.eqb (Type_ typ) metricsTypeSum then Some cloudwatch.Sum
  else if String.eqb (Type_ typ) metricsTypeMaximum then Some cloudwatch.Maximum
  else if String.eqb (Type_ typ) metricsTypeMinimum then Some cloudwatch.Minimum
  else None.

(** A datapoint with its four statistics and a timestamp that is not before
    the zero instant. *)
Definition complete (dp : cloudwatch.Datapoint) : Prop :=
  is_Some (cloudwatch.Average dp) ∧ is_Some (cloudwatch.Maximum dp) ∧
  is_Some (cloudwatch.Minimum dp) ∧ is_Some (cloudwatch.Sum dp) ∧
  stamped_not_before time.zero dp.

(** A graph definition declares the metric name [k] in one of its graphs. *)
Definition declares (graphdef : gmap string mp.Graphs) (k : string) : Prop :=
  ∃ key g, graphdef !! key = Some g ∧ k ∈ map mp.Name (mp.GraphMetrics g).

(** The fetch of the group named [name] is among the logged failures. *)
Definition failed (fails : list (metricsGroup * error)) (name : string) : Prop :=
  ∃ met e, (met, e) ∈ fails ∧ CloudWatchName met = name.

(** The names of the command of src/unnamed/part_000, and the name under
    which the library stores what the command stores under [k]. *)
Definition command_names : list string :=
  ["invocations_total"; "invocations_error"; "invocations_throttles";
   "duration_avg"; "duration_max"; "duration_min"].

Definition library_name (k : string) : string :=
  if String.eqb k "invocations_total" then "TEMPORARY_invocations_total" else k.

Definition library_metric (m : metric) : metric :=
  mkMetric (library_name (MackerelName m)) (Type_ m).

Definition library_group (g : metricsGroup) : metricsGroup :=
  mkGroup (CloudWatchName g) (map library_metric (Metrics g)).

(** The record [b] holds under the library's names what [a] holds under
    the command's names. *)
Definition renamed (a b : gmap string any) : Prop :=
  ∀ k, k ∈ command_names → b !! library_name k = a !! k.

(** The log with each group reduced to its CloudWatch name. *)
Definition log_names {C} (s : Sys C) : list (string * error) :=
  map (λ l, (CloudWatchName l.1, l.2)) (logged s).

(** Two states with the same client, clock, requests sent and failures
    logged. *)
Definition same_world {C} (sa sb : Sys C) : Prop :=
  cw sa = cw sb ∧ clock sa = clock sb ∧ ticks sa = ticks sb ∧ sent sa = sent sb ∧
  log_names sa = log_names sb.

(** Two outcomes are both a panic, or both a value and those are related. *)
Definition both {A B} (R : A -> B -> Prop) (ra : res A) (rb : res B) : Prop :=
  match ra, rb with
  | Val a, Val b => R a b
  | Panic, Panic => True
  | _, _ => False
  end.

(** * Properties *)

(** ** The cases of the test suite *)

Example TestTransformMetrics_regular :
  TransformMetrics
    (<["TEMPORARY_invocations_total" := Float64 150]>
       (<["invocations_error" := Float64 30]>
          (<["durations_avg" := Float64 0x1.f49999999999ap+7]> ∅)))
  = <["invocations_success" := Float64 120]>
      (<["invocations_error" := Float64 30]>
         (<["durations_avg" := Float64 0x1.f49999999999ap+7]> ∅)).
Proof. vm_compute. reflexivity. Qed.

Example TestTransformMetrics_noInvoke :
  TransformMetrics (<["durations_avg" := Float64 0x1.f49999999999ap+7]> ∅)
  = <["durations_avg" := Float64 0x1.f49999999999ap+7]> ∅.
Proof. reflexivity. Qed.

Example TestTransformMetrics_nonError :
  TransformMetrics
    (<["TEMPORARY_invocations_total" := Float64 150]>
       (<["durations_avg" := Float64 0x1.f49999999999ap+7]> ∅))
  = <["invocations_success" := Float64 150]>
      (<["durations_avg" := Float64 0x1.f49999999999ap+7]> ∅).
Proof. vm_compute. reflexivity. Qed.

Example TestGetLastPointFromCloudWatch :
  let now := time.mkTime 63800000000000000000 in
  let s0 := start (mkMock now 0) 63800000000 in
  let '(dp0, s1) :=
    getLastPointFromCloudWatch "myFunction"
      (mkGroup "Throttles" [mkMetric "invocations_throttles" metricsTypeSum]) s0 in
  let '(dp1, s2) :=
    getLastPointFromCloudWatch "myFunction"
      (mkGroup "Duration" [mkMetric "duration_avg" metricsTypeAverage;
                           mkMetric "duration_max" metricsTypeMaximum;
                           mkMetric "duration_min" metricsTypeMinimum]) s1 in
  dp0 = Val (Some (sumPoint 25 (time.Add now (60 * time.Second))), None) ∧
  dp1 = Val (Some (durationPoint 25 45 5 (time.Add now (60 * time.Second))), None) ∧
  RequestedCount (cw s2) = 2%nat.
Proof. vm_compute. done. Qed.

Example TestMergeStatsFromDatapoint :
  let dp := Some (cloudwatch.mkDatapoint (Some 25%float) (Some 45%float) (Some 5%float)
                    (Some 500%float) (Some (time.mkTime 63800000000000000000))) in
  let stats1 : gmap string any := <["TEMPORARY_invocations_total" := Float64 500]> ∅ in
  mergeStatsFromDatapoint ∅ dp
    (mkGroup "Invocations" [mkMetric "TEMPORARY_invocations_total" metricsTypeSum])
  = Val stats1 ∧
  mergeStatsFromDatapoint stats1 dp
    (mkGroup "Duration" [mkMetric "duration_avg" metricsTypeAverage;
                         mkMetric "duration_max" metricsTypeMaximum;
                         mkMetric "duration_min" metricsTypeMinimum])
  = Val (<["TEMPORARY_invocations_total" := Float64 500]>
           (<["duration_avg" := Float64 25]>
              (<["duration_max" := Float64 45]> (<["duration_min" := Float64 5]> ∅)))).
Proof. vm_compute. done. Qed.

(** ** The order of instants *)

Lemma Before_true t u : time.Before t u = true ↔ time.nanos t < time.nanos u.
Proof. apply Z.ltb_lt. Qed.

Lemma Before_false t u : time.Before t u = false ↔ time.nanos u <= time.nanos t.
Proof. apply Z.ltb_ge. Qed.

Ltac time_order :=
  repeat match goal with
  | H : time.Before _ _ = true |- _ => apply Before_true in H
  | H : time.Before _ _ = false |- _ => apply Before_false in H
  | |- time.Before _ _ = true => apply Before_true
  | |- time.Before _ _ = false => apply Before_false
  end; simpl in *; lia.

Lemma Before_irrefl t : time.Before t t = false.
Proof. time_order. Qed.

Lemma not_Before_trans a b c :
  time.Before b a = false → time.Before c b = false → time.Before c a = false.
Proof. intros. time_order. Qed.

Lemma Before_not_Before a z b :
  time.Before a z = true → time.Before b z = false → time.Before b a = false.
Proof. intros. time_order. Qed.

Lemma Before_asym a b : time.Before a b = true → time.Before b a = false.
Proof. intros. time_order. Qed.

(** ** The loop of getLastPointFromCloudWatch *)

Lemma lastPointLoop_inv rest : ∀ pre latest latestDp,
  Forall (λ dp, is_Some (cloudwatch.Timestamp dp)) rest →
  loop_inv pre latest latestDp →
  ∃ latest' r, lastPointLoop rest latest latestDp = Val r ∧ loop_inv (pre ++ rest) latest' r.
Proof.
  induction rest as [|dp rest IH]; intros pre latest latestDp Hts Hinv.
  - exists latest, latestDp. by rewrite app_nil_r.
  - apply Forall_cons in Hts as [[ts Hdp] Hts]. simpl. rewrite Hdp.
    replace (pre ++ dp :: rest) with ((pre ++ [dp]) ++ rest) by by rewrite <- app_assoc.
    destruct (time.Before ts latest) eqn:Hb; apply IH; try done.
    + (* skipped: dp is strictly earlier than the best so far *)
      destruct latestDp as [best|]; simpl in *.
      * destruct Hinv as (i & Hi & Hbest & Hall). exists i. split_and!; [|done|].
        { by apply lookup_app_l_Some. }
        intros j dpj tj Hj Htj.
        apply lookup_app_Some in Hj as [Hj|[Hlen Hj]]; [by eapply Hall|].
        apply list_lookup_singleton_Some in Hj as [_ ->].
        rewrite Hdp in Htj. injection Htj as <-. split; [by apply Before_asym|done].
      * destruct Hinv as [-> Hpre]. split; [done|].
        apply Forall_app. split; [done|]. apply Forall_singleton. by exists ts.
    + (* taken: dp is not earlier than the best so far *)
      simpl. exists (length pre). split_and!; [|done|].
      { rewrite lookup_app_r by lia. by rewrite Nat.sub_diag. }
      intros j dpj tj Hj Htj.
      apply lookup_app_Some in Hj as [Hj|[Hlen Hj]].
      * split; [|intros; apply lookup_lt_Some in Hj; lia].
        destruct latestDp as [best|]; simpl in *.
        -- destruct Hinv as (i & Hi & Hbest & Hall).
           destruct (Hall j dpj tj Hj Htj) as [Hle _].
           by eapply not_Before_trans.
        -- destruct Hinv as [-> Hpre].
           eapply Forall_lookup_1 in Hpre as (tj' & Htj' & Hlt); [|done].
           rewrite Htj in Htj'. injection Htj' as <-.
           by eapply Before_not_Before.
      * apply list_lookup_singleton_Some in Hj as [Hj ->].
        rewrite Hdp in Htj. injection Htj as <-.
        split; [apply Before_irrefl|]. intros; lia.
Qed.

(** ** getLastPointFromCloudWatch, in one step *)

Lemma getLastPointFromCloudWatch_run {C} `{CloudWatchAPI C} functionName metric (s : Sys C) :
  let input := statisticsInput (clock s (ticks s)) functionName metric in
  getLastPointFromCloudWatch functionName metric s =
    (of_answer (GetMetricStatistics (cw s) input).1,
     after_call s input (GetMetricStatistics (cw s) input).2).
Proof.
  intros input. unfold getLastPointFromCloudWatch, mbind, M_bind, time_Now,
    cw_GetMetricStatistics, after_call; simpl. fold input.
  destruct (GetMetricStatistics (cw s) input) as [[response err] c]; simpl.
  destruct err as [e|]; [by destruct response|].
  destruct response as [response|]; [|done]; simpl.
  destruct (cloudwatch.Datapoints response) as [|dp dps]; [done|]; simpl.
  unfold lift. by destruct (lastPoint (dp :: dps)).
Qed.

Lemma lastPoint_inv dps :
  Forall (λ dp, is_Some (cloudwatch.Timestamp dp)) dps →
  ∃ latest r, lastPoint dps = Val r ∧ loop_inv dps latest r.
Proof.
  intros Hts. apply (lastPointLoop_inv dps [] time.zero None Hts). by split.
Qed.

(** Datapoints that are all earlier than the best so far leave the loop
    variables as they are. *)
Lemma lastPointLoop_all_before dps latest latestDp :
  Forall (stamped_before latest) dps →
  lastPointLoop dps latest latestDp = Val latestDp.
Proof.
  induction 1 as [|dp dps (ts & Hts & Hb) _ IH]; [done|].
  simpl. by rewrite Hts, Hb.
Qed.

(** The loop replaces its datapoint only by one that is not before the
    zero instant. *)
Lemma lastPointLoop_replaced dps : ∀ latest latestDp r,
  time.Before latest time.zero = false →
  lastPointLoop dps latest latestDp = Val r →
  r = latestDp ∨ Exists (stamped_not_before time.zero) dps.
Proof.
  induction dps as [|dp dps IH]; intros latest latestDp r Hz Hrun; simpl in Hrun.
  - left. congruence.
  - destruct (cloudwatch.Timestamp dp) as [ts|] eqn:Hts; [|done].
    destruct (time.Before ts latest) eqn:Hb.
    + destruct (IH _ _ _ Hz Hrun) as [->|Hex]; [by left|right; by apply Exists_cons_tl].
    + right. apply Exists_cons_hd. exists ts. split; [done|].
      by eapply not_Before_trans.
Qed.

(** One round of the outer loop of [FetchMetrics], in one step. *)
Lemma fetchGroup_run {C} `{CloudWatchAPI C} functionName stat met (s : Sys C) :
  fetchGroup functionName stat met s =
    match getLastPointFromCloudWatch functionName met s with
    | (Val (v, None), s1) => (mergeStatsFromDatapoint stat v met, s1)
    | (Val (v, Some e), s1) => (Val stat, log_line s1 met e)
    | (Panic, s1) => (Panic, s1)
    end.
Proof.
  unfold fetchGroup, mbind, M_bind.
  destruct (getLastPointFromCloudWatch functionName met s) as [[[v [e|]]|] s1]; done.
Qed.

Lemma bind_Panic {C A B} (m : M C A) (f : A → M C B) (s : Sys C) :
  (m s).1 = Panic → ((m ≫= f) s).1 = Panic.
Proof.
  unfold mbind, M_bind. by destruct (m s) as [[a|] s1].
Qed.

(** Every group of the array has a statistic to read, so a nil datapoint
    cannot be merged. *)
Lemma merge_nil_panics stat met :
  met ∈ metricsGroups → mergeStatsFromDatapoint stat None met = Panic.
Proof.
  unfold metricsGroups. intros Hin.
  repeat (apply elem_of_cons in Hin as [->|Hin]); [done..|].
  by apply elem_of_nil in Hin.
Qed.

(** C1 (amended): when the response carries datapoints, each with a
    timestamp, and at least one of them is not before the zero instant,
    [getLastPointFromCloudWatch] returns the datapoint at some position [i]
    of the response such that no datapoint has a later timestamp and every
    datapoint after position [i] is strictly earlier: among the datapoints
    with the greatest timestamp the last one in iteration order wins. *)
Theorem getLastPoint_latest_last_on_ties {C} `{CloudWatchAPI C}
    functionName metric (s : Sys C) response :
  (GetMetricStatistics (cw s)
     (statisticsInput (clock s (ticks s)) functionName metric)).1
    = (Some response, None) →
  Forall (λ dp, is_Some (cloudwatch.Timestamp dp)) (cloudwatch.Datapoints response) →
  Exists (stamped_not_before time.zero) (cloudwatch.Datapoints response) →
  ∃ (i : nat) dp ts,
    (getLastPointFromCloudWatch functionName metric s).1 = Val (Some dp, None) ∧
    cloudwatch.Datapoints response !! i = Some dp ∧
    cloudwatch.Timestamp dp = Some ts ∧
    ∀ (j : nat) dpj tj,
      cloudwatch.Datapoints response !! j = Some dpj →
      cloudwatch.Timestamp dpj = Some tj →
      time.Before ts tj = false ∧ ((i < j)%nat → time.Before tj ts = true).
Proof.
  intros Hans Hts Hex.
  rewrite getLastPointFromCloudWatch_run; simpl. rewrite Hans; simpl.
  destruct (lastPoint_inv _ Hts) as (latest & r & Hrun & Hinv).
  destruct (cloudwatch.Datapoints response) as [|dp0 dps] eqn:Hdps.
  { by apply Exists_nil in Hex. }
  rewrite Hrun. destruct r as [dp|]; simpl in Hinv.
  - destruct Hinv as (i & Hi & Hdp & Hall). by exists i, dp, latest.
  - destruct Hinv as [_ Hall]. exfalso.
    apply Exists_exists in Hex as (dp & Hin & ts & Hdp & Hnb).
    rewrite Forall_forall in Hall. destruct (Hall dp Hin) as (ts' & Hdp' & Hb).
    congruence.
Qed.

(** A response with a tie for the latest instant: the third datapoint,
    the last of the two latest ones, is returned. *)
Lemma getLastPoint_latest_last_on_ties_witness :
  ∃ (i : nat) dp ts,
    (getLastPointFromCloudWatch "myFunction" (mkGroup "Errors" [mkMetric "invocations_error" "Sum"])
       (start [answer [sumPoint 30 (time.mkTime 500); sumPoint 25 (time.mkTime 560);
                       sumPoint 35 (time.mkTime 560)]] 1000)).1
      = Val (Some dp, None) ∧
    [sumPoint 30 (time.mkTime 500); sumPoint 25 (time.mkTime 560);
     sumPoint 35 (time.mkTime 560)] !! i = Some dp ∧
    cloudwatch.Timestamp dp = Some ts ∧
    ∀ (j : nat) dpj tj,
      [sumPoint 30 (time.mkTime 500); sumPoint 25 (time.mkTime 560);
       sumPoint 35 (time.mkTime 560)] !! j = Some dpj →
      cloudwatch.Timestamp dpj = Some tj →
      time.Before ts tj = false ∧ ((i < j)%nat → time.Before tj ts = true).
Proof.
  apply (getLastPoint_latest_last_on_ties (C := script) "myFunction"
           (mkGroup "Errors" [mkMetric "invocations_error" "Sum"])
           (start [answer [sumPoint 30 (time.mkTime 500); sumPoint 25 (time.mkTime 560);
                           sumPoint 35 (time.mkTime 560)]] 1000)
           (cloudwatch.mkOutput None
              [sumPoint 30 (time.mkTime 500); sumPoint 25 (time.mkTime 560);
               sumPoint 35 (time.mkTime 560)])).
  - reflexivity.
  - repeat constructor; simpl; eexists; reflexivity.
  - apply Exists_cons_hd. exists (time.mkTime 500). split; reflexivity.
Defined.

Example getLastPoint_tie_takes_third :
  (getLastPointFromCloudWatch "myFunction" (mkGroup "Errors" [mkMetric "invocations_error" "Sum"])
     (start [answer [sumPoint 30 (time.mkTime 500); sumPoint 25 (time.mkTime 560);
                     sumPoint 35 (time.mkTime 560)]] 1000)).1
  = Val (Some (sumPoint 35 (time.mkTime 560)), None).
Proof. reflexivity. Qed.

(** C1, as stated, fails: a response with one datapoint, stamped one
    nanosecond before the zero instant, is not empty, yet no datapoint is
    returned. *)
Lemma getLastPoint_before_zero_returns_nil :
  (getLastPointFromCloudWatch "myFunction" (mkGroup "Errors" [mkMetric "invocations_error" "Sum"])
     (start [answer [sumPoint 30 (time.mkTime (-1))]] 1000)).1
  = Val (None, None).
Proof. reflexivity. Qed.

(** C10: the loop starts from the zero instant, which is not earlier than
    every instant.  When the answer to a group's request carries datapoints
    that are all strictly before the zero instant, the loop never replaces
    its initial nil: [getLastPointFromCloudWatch] returns a nil datapoint
    with a nil error, and the round of [FetchMetrics] for that group
    dereferences it and panics (so does the run, when the group is the first
    one).  A datapoint is returned only if some timestamp is not strictly
    before the zero instant. *)
Theorem zero_sentinel_nil_datapoint {C} `{CloudWatchAPI C}
    (p : LambdaPlugin) stat met (s : Sys C) response :
  met ∈ metricsGroups →
  (GetMetricStatistics (cw s)
     (statisticsInput (clock s (ticks s)) (FunctionName p) met)).1
    = (Some response, None) →
  cloudwatch.Datapoints response ≠ [] →
  Forall (stamped_before time.zero) (cloudwatch.Datapoints response) →
  lastPoint (cloudwatch.Datapoints response)
    = lastPointLoop (cloudwatch.Datapoints response) (time.mkTime 0) None ∧
  (∃ t, time.Before t (time.mkTime 0) = true) ∧
  (getLastPointFromCloudWatch (FunctionName p) met s).1 = Val (None, None) ∧
  (fetchGroup (FunctionName p) stat met s).1 = Panic ∧
  (metricsGroups !! 0%nat = Some met → (FetchMetrics p s).1 = Panic) ∧
  (∀ dps dp, lastPoint dps = Val (Some dp) →
     Exists (stamped_not_before time.zero) dps).
Proof.
  intros Hmet Hans Hne Hall.
  assert (Hget : (getLastPointFromCloudWatch (FunctionName p) met s).1 = Val (None, None)).
  { rewrite getLastPointFromCloudWatch_run; simpl. rewrite Hans; simpl.
    destruct (cloudwatch.Datapoints response) as [|dp dps] eqn:Hdps; [done|].
    unfold lastPoint. by rewrite lastPointLoop_all_before. }
  assert (Hround : ∀ stat', (fetchGroup (FunctionName p) stat' met s).1 = Panic).
  { intros stat'. rewrite fetchGroup_run.
    destruct (getLastPointFromCloudWatch (FunctionName p) met s) as [r s1].
    simpl in Hget. subst r. simpl. by apply merge_nil_panics. }
  split_and!; [done| |done|done| |].
  - by exists (time.mkTime (-1)).
  - intros Hfirst. injection Hfirst as <-.
    unfold FetchMetrics. apply bind_Panic.
    change (((fetchGroup (FunctionName p) ∅
                (mkGroup "Invocations" [mkMetric "TEMPORARY_invocations_total" metricsTypeSum])
              ≫= (λ stat', fetchLoop (FunctionName p) stat' (tail metricsGroups))) s).1
            = Panic).
    apply bind_Panic, Hround.
  - intros dps dp Hrun.
    destruct (lastPointLoop_replaced dps time.zero None (Some dp)) as [Heq|Hex];
      [done|done|done|done].
Qed.

(** An idle-looking first group whose only datapoint predates the zero
    instant: the fetch returns nil and nil, and the run panics. *)
Lemma zero_sentinel_nil_datapoint_witness :
  let met := mkGroup "Invocations" [mkMetric "TEMPORARY_invocations_total" "Sum"] in
  let dps := [sumPoint 30 (time.mkTime (-1))] in
  let s := start [answer dps] 1000 in
  let p := mkPlugin "myFunction" "lambda" "" "" "" in
  lastPoint dps = lastPointLoop dps (time.mkTime 0) None ∧
  (∃ t, time.Before t (time.mkTime 0) = true) ∧
  (getLastPointFromCloudWatch (FunctionName p) met s).1 = Val (None, None) ∧
  (fetchGroup (FunctionName p) ∅ met s).1 = Panic ∧
  (metricsGroups !! 0%nat = Some met → (FetchMetrics p s).1 = Panic) ∧
  (∀ dps dp, lastPoint dps = Val (Some dp) →
     Exists (stamped_not_before time.zero) dps).
Proof.
  intros met dps s p.
  apply (zero_sentinel_nil_datapoint (C := script) p ∅ met s (cloudwatch.mkOutput None dps)).
  - apply list_elem_of_here.
  - reflexivity.
  - discriminate.
  - apply Forall_cons. split; [|constructor].
    exists (time.mkTime (-1)). split; reflexivity.
Defined.

Example FetchMetrics_panics_on_early_datapoint :
  (FetchMetrics (mkPlugin "myFunction" "lambda" "" "" "")
     (start [answer [sumPoint 30 (time.mkTime (-1))]] 1000)).1 = Panic.
Proof. reflexivity. Qed.

(** C8 (amended): an upstream failure is returned as it is, without a
    datapoint; an answer without failure and without datapoints gives the
    error [errors.New("fetched no datapoints")]; an answer with datapoints
    gives no error.  So that error is returned exactly when the answer has
    no failure and no datapoints, or when the upstream failure is itself
    such an error: no type or sentinel value sets the two apart. *)
Theorem getLastPoint_errors {C} `{CloudWatchAPI C} functionName metric (s : Sys C) :
  let a := (GetMetricStatistics (cw s)
              (statisticsInput (clock s (ticks s)) functionName metric)).1 in
  let r := (getLastPointFromCloudWatch functionName metric s).1 in
  (∀ e, a.2 = Some e → r = Val (None, Some e)) ∧
  (∀ response, a = (Some response, None) → cloudwatch.Datapoints response = [] →
     r = Val (None, Some (errors_New "fetched no datapoints"))) ∧
  (∀ response, a = (Some response, None) → cloudwatch.Datapoints response ≠ [] →
     ∀ v e, r = Val (v, e) → e = None) ∧
  (r = Val (None, Some (errors_New "fetched no datapoints")) ↔
     (∃ response, a = (Some response, None) ∧ cloudwatch.Datapoints response = []) ∨
     a.2 = Some (errors_New "fetched no datapoints")).
Proof.
  intros a r. unfold r. rewrite getLastPointFromCloudWatch_run; simpl. fold a.
  destruct a as [response err]; simpl.
  destruct err as [e0|].
  { split_and!.
    - intros e [= <-]. by destruct response.
    - intros ? [=].
    - intros ? [=].
    - destruct response; (split; [intros [= <-]; by right | intros [(? & [=] & _)|[= <-]]; done]). }
  destruct response as [response|].
  2:{ split_and!; [intros ? [=]|intros ? [=]..|].
      split; [done|]. intros [(? & [=] & _)|[=]]. }
  destruct (cloudwatch.Datapoints response) as [|dp dps] eqn:Hdps.
  - split_and!; [intros ? [=]|done|intros ? [= <-]; by rewrite Hdps| ].
    split; [|done]. intros _. left. by exists response.
  - split_and!.
    + intros ? [=].
    + intros ? [= <-]. by rewrite Hdps.
    + intros ? _ _ v e. destruct (lastPoint (dp :: dps)); [by intros [= _ <-]|done].
    + split.
      * destruct (lastPoint (dp :: dps)); done.
      * intros [(? & [= <-] & Hnil)|[=]]. by rewrite Hdps in Hnil.
Qed.

(** An idle function: the request succeeds and carries no datapoints. *)
Lemma getLastPoint_errors_witness :
  (getLastPointFromCloudWatch "myFunction" (mkGroup "Errors" [mkMetric "invocations_error" "Sum"])
     (start [answer []] 1000)).1
  = Val (None, Some (errors_New "fetched no datapoints")).
Proof.
  apply (proj1 (proj2 (getLastPoint_errors (C := script) "myFunction"
                         (mkGroup "Errors" [mkMetric "invocations_error" "Sum"])
                         (start [answer []] 1000)))
           (cloudwatch.mkOutput None [])).
  - reflexivity.
  - reflexivity.
Defined.

(** C8, as stated, fails: a client whose request fails upstream, with an
    error of the same kind and text, makes the fetch return what it returns
    for a successful request that carried no datapoints. *)
Lemma no_data_not_told_apart_from_upstream_failure :
  let met := mkGroup "Errors" [mkMetric "invocations_error" "Sum"] in
  let idle : script := [answer []] in
  let failing : script := [(None, Some (errors_New "fetched no datapoints"))] in
  (getLastPointFromCloudWatch "myFunction" met (start idle 1000)).1
    = Val (None, Some (errors_New "fetched no datapoints")) ∧
  (getLastPointFromCloudWatch "myFunction" met (start failing 1000)).1
    = Val (None, Some (errors_New "fetched no datapoints")).
Proof. split; reflexivity. Qed.

(** C9 (amended): a fetch reads the wall clock once, and issues one request:
    the dimension [FunctionName] set to the function name, from 180 seconds
    before the instant read to that instant, with a period of 600, for the
    statistics of the group in their order.  The instant is the clock
    reading of that fetch, not an argument. *)
Theorem getLastPoint_request {C} `{CloudWatchAPI C} functionName metric (s : Sys C) :
  let now := clock s (ticks s) in
  let s' := (getLastPointFromCloudWatch functionName metric s).2 in
  ticks s' = S (ticks s) ∧
  sent s' = sent s ++
    [cloudwatch.mkInput
       [cloudwatch.mkDimension "FunctionName" functionName]
       (time.mkTime (time.nanos now - 180 * 1000000000))
       now
       (CloudWatchName metric)
       600
       (map Type_ (Metrics metric))
       "AWS/Lambda"].
Proof.
  intros now s'. unfold s'. rewrite getLastPointFromCloudWatch_run. simpl.
  split; reflexivity.
Qed.

(** C9, as stated, fails: with the same arguments and the same client, the
    request depends on the clock; and the four fetches of one run use four
    different instants. *)
Lemma now_is_read_by_each_fetch :
  let met := mkGroup "Errors" [mkMetric "invocations_error" "Sum"] in
  let p := mkPlugin "myFunction" "lambda" "" "" "" in
  sent (getLastPointFromCloudWatch "myFunction" met (start ([] : script) 1000)).2
    ≠ sent (getLastPointFromCloudWatch "myFunction" met (start ([] : script) 2000)).2 ∧
  map cloudwatch.EndTime (sent (FetchMetrics p (start ([] : script) 1000)).2)
    = [time.mkTime 1000000000000; time.mkTime 1001000000000;
       time.mkTime 1002000000000; time.mkTime 1003000000000].
Proof. split; [discriminate|reflexivity]. Qed.

(** ** TransformMetrics *)

Lemma TransformMetrics_other stats k :
  k ≠ success_key → k ≠ total_key → TransformMetrics stats !! k = stats !! k.
Proof.
  intros Hs Ht. unfold TransformMetrics.
  destruct (as_float64 (stats !! total_key)); [|done].
  rewrite lookup_delete_ne by done.
  destruct (as_float64 (stats !! error_key)); by rewrite lookup_insert_ne.
Qed.

(** C2: with the total present, the success value is total minus error
    when the error count is present and the total when it is absent; with
    the total absent the record is returned as it is.  In every case the
    keys other than the success key and the total key keep their values. *)
Theorem TransformMetrics_success_rules (stats : gmap string any) :
  (∀ totalCount errorCount,
     stats !! "TEMPORARY_invocations_total" = Some (Float64 totalCount) →
     stats !! "invocations_error" = Some (Float64 errorCount) →
     TransformMetrics stats !! "invocations_success"
       = Some (Float64 (totalCount - errorCount)%float)) ∧
  (∀ totalCount,
     stats !! "TEMPORARY_invocations_total" = Some (Float64 totalCount) →
     stats !! "invocations_error" = None →
     TransformMetrics stats !! "invocations_success" = Some (Float64 totalCount)) ∧
  (stats !! "TEMPORARY_invocations_total" = None → TransformMetrics stats = stats) ∧
  (∀ k, k ≠ "invocations_success" → k ≠ "TEMPORARY_invocations_total" →
     TransformMetrics stats !! k = stats !! k).
Proof.
  split_and!.
  - intros t e Ht He. unfold TransformMetrics, total_key, error_key. rewrite Ht, He; simpl.
    rewrite lookup_delete_ne by done. apply lookup_insert_eq.
  - intros t Ht He. unfold TransformMetrics, total_key, error_key. rewrite Ht, He; simpl.
    rewrite lookup_delete_ne by done. apply lookup_insert_eq.
  - intros Ht. unfold TransformMetrics, total_key. by rewrite Ht.
  - intros k. apply TransformMetrics_other.
Qed.

Lemma TransformMetrics_success_rules_witness :
  TransformMetrics
    (<["TEMPORARY_invocations_total" := Float64 150]>
       (<["invocations_error" := Float64 30]> ∅)) !! "invocations_success"
  = Some (Float64 (150 - 30)%float).
Proof.
  apply (proj1 (TransformMetrics_success_rules
                  (<["TEMPORARY_invocations_total" := Float64 150]>
                     (<["invocations_error" := Float64 30]> ∅)))).
  - reflexivity.
  - reflexivity.
Defined.

(** C3: for a record of [float64] values, the returned record has no total
    key, whether or not a success value was computed. *)
Theorem TransformMetrics_removes_total (stats : gmap string any) :
  float64_record stats →
  TransformMetrics stats !! "TEMPORARY_invocations_total" = None.
Proof.
  intros Hfl. unfold TransformMetrics. fold total_key.
  destruct (as_float64 (stats !! total_key)) as [t|] eqn:Ht.
  - apply lookup_delete_eq.
  - destruct (stats !! total_key) as [x|] eqn:Hx; [|done].
    destruct (Hfl _ _ Hx) as [f ->]. done.
Qed.

Lemma TransformMetrics_removes_total_witness :
  TransformMetrics
    (<["TEMPORARY_invocations_total" := Float64 150]>
       (<["invocations_error" := Float64 30]> ∅)) !! "TEMPORARY_invocations_total"
  = None.
Proof.
  apply (TransformMetrics_removes_total
           (<["TEMPORARY_invocations_total" := Float64 150]>
              (<["invocations_error" := Float64 30]> ∅))).
  intros k x Hk.
  apply lookup_insert_Some in Hk as [[_ <-]|[_ Hk]]; [by eexists|].
  apply lookup_insert_Some in Hk as [[_ <-]|[_ Hk]]; [by eexists|].
  by rewrite lookup_empty in Hk.
Defined.

(** The type assertion of [TransformMetrics] guards the removal: a total
    that is not a [float64] stays in the record. *)
Lemma TransformMetrics_keeps_other_total :
  TransformMetrics (<["TEMPORARY_invocations_total" := Int 150]> ∅)
  = <["TEMPORARY_invocations_total" := Int 150]> ∅.
Proof. reflexivity. Qed.

(** ** Merging a datapoint *)

(** The effect of one round of the inner loop does not depend on the record. *)
Lemma mergeStat_cases v typ :
  (∀ stat, mergeStat v stat typ = Panic) ∨
  (∀ stat, mergeStat v stat typ = Val stat) ∨
  (∃ x, ∀ stat, mergeStat v stat typ = Val (<[MackerelName typ := Float64 x]> stat)).
Proof.
  unfold mergeStat, storeField.
  repeat match goal with
         | |- context [String.eqb ?a ?b] => destruct (String.eqb a b)
         end;
    try (right; left; done);
    (destruct v as [dp|]; [|by left]);
    match goal with
    | |- context [match ?f dp with _ => _ end] =>
        destruct (f dp) as [x|]; [right; right; by exists x|by left]
    end.
Qed.

Lemma mergeLoop_twice types : ∀ stat stat' v,
  mergeLoop stat v types = Val stat' →
  ∀ stat2, ∃ stat2', mergeLoop stat2 v types = Val stat2' ∧
    ∀ k, stat2' !! k = stat' !! k ∨
         (stat2' !! k = stat2 !! k ∧ stat' !! k = stat !! k).
Proof.
  induction types as [|typ types IH]; intros stat stat' v Hrun stat2; simpl in *.
  - injection Hrun as <-. exists stat2. split; [done|]. by right.
  - destruct (mergeStat_cases v typ) as [Hp|[Hid|[x Hins]]].
    + by rewrite Hp in Hrun.
    + rewrite Hid in *. simpl in *. by apply IH.
    + rewrite Hins in *. simpl in *.
      destruct (IH _ _ _ Hrun (<[MackerelName typ := Float64 x]> stat2))
        as (stat2' & Hrun2 & Hk).
      exists stat2'. split; [done|]. intros k.
      destruct (Hk k) as [Heq|[H2 H1]]; [by left|].
      destruct (decide (MackerelName typ = k)) as [<-|Hne].
      * left. by rewrite H2, H1, !lookup_insert_eq.
      * right. by rewrite H2, H1, !lookup_insert_ne.
Qed.

(** C7: merging the same group and datapoint a second time gives what
    merging it once gives (a panic of the first merge included). *)
Theorem mergeStatsFromDatapoint_idempotent
    (stats : gmap string any) (dp : option cloudwatch.Datapoint) (mg : metricsGroup) :
  (mergeStatsFromDatapoint stats dp mg ≫= λ stats', mergeStatsFromDatapoint stats' dp mg)
  = mergeStatsFromDatapoint stats dp mg.
Proof.
  unfold mergeStatsFromDatapoint, mbind, res_bind.
  destruct (mergeLoop stats dp (Metrics mg)) as [stats'|] eqn:Hrun; [|done].
  destruct (mergeLoop_twice _ _ _ _ Hrun stats') as (stats'' & -> & Hk).
  f_equal. apply map_eq. intros k. destruct (Hk k) as [?|[? _]]; done.
Qed.

Lemma mergeLoop_lookup types : ∀ stat stat' v,
  mergeLoop stat v types = Val stat' →
  ∀ k x, stat' !! k = Some x →
    stat !! k = Some x ∨ (k ∈ map MackerelName types ∧ ∃ f, x = Float64 f).
Proof.
  induction types as [|typ types IH]; intros stat stat' v Hrun k x Hk; simpl in *.
  - injection Hrun as <-. by left.
  - destruct (mergeStat_cases v typ) as [Hp|[Hid|[y Hins]]].
    + by rewrite Hp in Hrun.
    + rewrite Hid in Hrun. simpl in Hrun.
      destruct (IH _ _ _ Hrun k x Hk) as [?|[? ?]]; [by left|right].
      split; [by apply list_elem_of_further|done].
    + rewrite Hins in Hrun. simpl in Hrun.
      destruct (IH _ _ _ Hrun k x Hk) as [Hin|[? ?]].
      * apply lookup_insert_Some in Hin as [[<- <-]|[_ ?]]; [right|by left].
        split; [apply list_elem_of_here|by exists y].
      * right. split; [by apply list_elem_of_further|done].
Qed.

(** ** The outer loop of FetchMetrics *)

Lemma fetchGroup_step {C} `{CloudWatchAPI C} functionName stat met (s : Sys C) stat' s' :
  fetchGroup functionName stat met s = (Val stat', s') →
  map cloudwatch.MetricName (sent s')
    = map cloudwatch.MetricName (sent s) ++ [CloudWatchName met] ∧
  ((logged s' = logged s ∧ ∃ v, mergeStatsFromDatapoint stat v met = Val stat') ∨
   (stat' = stat ∧ ∃ e, logged s' = logged s ++ [(met, e)])).
Proof.
  rewrite fetchGroup_run, getLastPointFromCloudWatch_run.
  destruct (of_answer _) as [[v [e|]]|]; intros [= Hstat <-]; simpl.
  - rewrite map_app. split; [done|right]. split; [done|by exists e].
  - rewrite map_app. split; [done|left]. split; [done|by exists v].
Qed.

Lemma fetchLoop_inv {C} `{CloudWatchAPI C} functionName mets :
  ∀ stat (s : Sys C) stat' s',
  fetchLoop functionName stat mets s = (Val stat', s') →
  ∃ (oks : list metricsGroup) (fails : list (metricsGroup * error)),
    mets ≡ₚ oks ++ fails.*1 ∧
    logged s' = logged s ++ fails ∧
    map cloudwatch.MetricName (sent s')
      = map cloudwatch.MetricName (sent s) ++ map CloudWatchName mets ∧
    ∀ k x, stat' !! k = Some x →
      stat !! k = Some x ∨
      ∃ met, met ∈ oks ∧ k ∈ map MackerelName (Metrics met) ∧ ∃ f, x = Float64 f.
Proof.
  induction mets as [|met rest IH]; intros stat s stat' s' Hrun; simpl in Hrun.
  - injection Hrun as <- <-. exists [], []. rewrite !app_nil_r. split_and!; [done..|].
    intros k x Hk. by left.
  - unfold mbind, M_bind in Hrun.
    destruct (fetchGroup functionName stat met s) as [[stat1|] s1] eqn:Hround; [|done].
    apply fetchGroup_step in Hround as [Hsent Hcases].
    apply IH in Hrun as (oks & fails & Hperm & Hlog & Hsent' & Hkeys).
    assert (Hsent'' : map cloudwatch.MetricName (sent s')
              = map cloudwatch.MetricName (sent s) ++ map CloudWatchName (met :: rest)).
    { rewrite Hsent', Hsent. by rewrite <- app_assoc. }
    destruct Hcases as [[Hlog1 [v Hmerge]]|[-> [e Hlog1]]].
    + exists (met :: oks), fails. split_and!; [by rewrite Hperm|congruence|done|].
      intros k x Hk. destruct (Hkeys k x Hk) as [Hk1|(met' & ? & ? & ?)].
      * destruct (mergeLoop_lookup _ _ _ _ Hmerge k x Hk1) as [?|[? ?]]; [by left|right].
        exists met. split_and!; [apply list_elem_of_here|done..].
      * right. exists met'. split_and!; [by apply list_elem_of_further|done..].
    + exists oks, ((met, e) :: fails). split_and!; [|..|done|done].
      * rewrite Hperm. simpl. apply Permutation_middle.
      * rewrite Hlog, Hlog1. by rewrite <- app_assoc.
Qed.

Ltac list_mem :=
  solve [repeat first [apply list_elem_of_here | apply list_elem_of_further]].

Ltac in_list H :=
  repeat (apply elem_of_cons in H as [H|H]; [try subst|]);
  try (by apply elem_of_nil in H).

Lemma metricsGroups_names met k :
  met ∈ metricsGroups → k ∈ map MackerelName (Metrics met) → k ∈ group_names.
Proof.
  unfold metricsGroups, group_names. intros Hmet Hk.
  in_list Hmet; simpl in Hk; in_list Hk; list_mem.
Qed.

Lemma metricsGroups_disjoint met met' k :
  met ∈ metricsGroups → met' ∈ metricsGroups →
  k ∈ map MackerelName (Metrics met) → k ∈ map MackerelName (Metrics met') →
  met = met'.
Proof.
  unfold metricsGroups. intros Hmet Hmet' Hk Hk'.
  in_list Hmet; simpl in Hk; in_list Hk; in_list Hmet'; simpl in Hk';
    first [reflexivity | in_list Hk'; discriminate].
Qed.

Lemma metricsGroups_NoDup : NoDup metricsGroups.
Proof.
  unfold metricsGroups.
  repeat (apply NoDup_cons; split; [intros Hin; in_list Hin; discriminate|]).
  apply NoDup_nil_2.
Qed.

Lemma FetchMetrics_run {C} `{CloudWatchAPI C} p (s : Sys C) rec err s' :
  FetchMetrics p s = (Val (rec, err), s') →
  err = None ∧
  ∃ stat, fetchLoop (FunctionName p) ∅ metricsGroups s = (Val stat, s') ∧
          rec = TransformMetrics stat.
Proof.
  unfold FetchMetrics, mbind, M_bind.
  destruct (fetchLoop (FunctionName p) ∅ metricsGroups s) as [[stat|] s1]; [|done].
  intros [= <- <- <-]. split; [done|]. by exists stat.
Qed.

Lemma TransformMetrics_lookup stats k x :
  float64_record stats →
  TransformMetrics stats !! k = Some x →
  (k = success_key ∨ (k ≠ total_key ∧ stats !! k = Some x)) ∧ ∃ f, x = Float64 f.
Proof.
  intros Hfl. unfold TransformMetrics.
  destruct (as_float64 (stats !! total_key)) as [t|] eqn:Ht.
  - intros Hk. apply lookup_delete_Some in Hk as [Hne Hk].
    destruct (as_float64 (stats !! error_key));
      (apply lookup_insert_Some in Hk as [[<- <-]|[_ Hk]];
       [split; [by left|by eexists]|split; [by right|by eapply Hfl]]).
  - intros Hk. split; [|by eapply Hfl].
    right. split; [|done]. intros ->. rewrite Hk in Ht.
    destruct (Hfl _ _ Hk) as [f ->]. done.
Qed.

(** What the outer loop has built when it is done: the groups split into
    merged and logged ones, one request was sent per group, and every entry
    of the record was written for a merged group. *)
Lemma fetchLoop_metricsGroups {C} `{CloudWatchAPI C} functionName (s : Sys C) stat s' :
  fetchLoop functionName ∅ metricsGroups s = (Val stat, s') →
  float64_record stat ∧
  map cloudwatch.MetricName (sent s')
    = map cloudwatch.MetricName (sent s) ++ ["Invocations"; "Errors"; "Throttles"; "Duration"] ∧
  ∃ fails, logged s' = logged s ++ fails ∧
    (∀ met e, (met, e) ∈ fails → met ∈ metricsGroups) ∧
    ∀ k x, stat !! k = Some x →
      k ∈ group_names ∧
      ∀ met e, (met, e) ∈ fails → k ∉ map MackerelName (Metrics met).
Proof.
  intros Hrun. apply fetchLoop_inv in Hrun as (oks & fails & Hperm & Hlog & Hsent & Hkeys).
  split_and!; [|done|exists fails; split_and!; [done|..]].
  - intros k x Hk. destruct (Hkeys k x Hk) as [Hk0|(_ & _ & _ & Hf)]; [|done].
    by rewrite lookup_empty in Hk0.
  - intros met e Hfail. rewrite Hperm. apply elem_of_app. right.
    apply list_elem_of_fmap. by exists (met, e).
  - intros k x Hk. destruct (Hkeys k x Hk) as [Hk0|(met' & Hok & Hname & _)].
    { by rewrite lookup_empty in Hk0. }
    assert (Hin' : met' ∈ metricsGroups).
    { rewrite Hperm. apply elem_of_app. by left. }
    split; [by eapply metricsGroups_names|].
    intros met e Hfail Hname'.
    assert (Hfail' : met ∈ fails.*1).
    { apply list_elem_of_fmap. by exists (met, e). }
    assert (Hin : met ∈ metricsGroups).
    { rewrite Hperm. apply elem_of_app. by right. }
    assert (met = met') as -> by by eapply metricsGroups_disjoint.
    pose proof metricsGroups_NoDup as Hnd. rewrite Hperm in Hnd.
    apply NoDup_app in Hnd as (_ & Hdisj & _). by eapply Hdisj.
Qed.

(** A round whose fetch failed leaves the record as it is and goes on. *)
Lemma fetchLoop_skip {C} `{CloudWatchAPI C} functionName stat met rest (s : Sys C) v e s1 :
  getLastPointFromCloudWatch functionName met s = (Val (v, Some e), s1) →
  fetchLoop functionName stat (met :: rest) s
    = fetchLoop functionName stat rest (log_line s1 met e).
Proof.
  intros Hget. simpl. unfold mbind at 1. unfold M_bind.
  by rewrite fetchGroup_run, Hget.
Qed.

Lemma fetchLoop_all_fail {C} `{CloudWatchAPI C} functionName mets :
  (∀ (c : C) input, is_Some (GetMetricStatistics c input).1.2) →
  ∀ stat (s : Sys C), (fetchLoop functionName stat mets s).1 = Val stat.
Proof.
  intros Hfail. induction mets as [|met rest IH]; intros stat s; [done|].
  destruct (getLastPointFromCloudWatch functionName met s) as [r s1] eqn:Hget.
  pose proof Hget as Hget'. rewrite getLastPointFromCloudWatch_run in Hget'.
  injection Hget' as Hr _.
  destruct (Hfail (cw s) (statisticsInput (clock s (ticks s)) functionName met)) as [e He].
  destruct (GetMetricStatistics (cw s) _) as [[response err] c]. simpl in He. subst err.
  assert (r = Val (None, Some e)) as -> by (rewrite <- Hr; by destruct response).
  erewrite fetchLoop_skip by done. apply IH.
Qed.

(** C4: a round of the loop whose fetch returns an error writes a log line
    and nothing else, and the loop goes on with the remaining groups and the
    record as it was.  A run that returns has sent one request per group, in
    the order of the array, and its record has no key of a group whose fetch
    failed.  Fetch errors alone never end the run: when every request fails
    the run returns the empty record. *)
Theorem FetchMetrics_skips_failed_groups {C} `{CloudWatchAPI C}
    (p : LambdaPlugin) (s : Sys C) :
  (∀ stat met rest (s0 : Sys C) v e s1,
     getLastPointFromCloudWatch (FunctionName p) met s0 = (Val (v, Some e), s1) →
     fetchLoop (FunctionName p) stat (met :: rest) s0
       = fetchLoop (FunctionName p) stat rest (log_line s1 met e)) ∧
  (∀ rec err s', FetchMetrics p s = (Val (rec, err), s') →
     err = None ∧
     map cloudwatch.MetricName (sent s')
       = map cloudwatch.MetricName (sent s)
           ++ ["Invocations"; "Errors"; "Throttles"; "Duration"] ∧
     ∃ fails, logged s' = logged s ++ fails ∧
       ∀ met e typ, (met, e) ∈ fails → typ ∈ Metrics met →
         rec !! MackerelName typ = None) ∧
  ((∀ (c : C) input, is_Some (GetMetricStatistics c input).1.2) →
     (FetchMetrics p s).1 = Val (∅, None)).
Proof.
  split_and!.
  - intros. by eapply fetchLoop_skip.
  - intros rec err s' Hrun.
    apply FetchMetrics_run in Hrun as (-> & stat & Hloop & ->).
    apply fetchLoop_metricsGroups in Hloop as (Hfl & Hsent & fails & Hlog & Hin & Hkeys).
    split_and!; [done..|]. exists fails. split; [done|].
    intros met e typ Hfail Htyp.
    destruct (TransformMetrics stat !! MackerelName typ) as [x|] eqn:Hk; [exfalso|done].
    assert (Hname : MackerelName typ ∈ map MackerelName (Metrics met)).
    { apply list_elem_of_fmap. by exists typ. }
    apply TransformMetrics_lookup in Hk as [[Hs|[_ Hk]] _]; [| |done].
    + (* the success key is no group's name *)
      pose proof (metricsGroups_names _ _ (Hin _ _ Hfail) Hname) as Hgroup.
      rewrite Hs in Hgroup. unfold group_names in Hgroup. in_list Hgroup; discriminate.
    + destruct (Hkeys _ _ Hk) as [_ Hnot]. by eapply Hnot.
  - intros Hfail. unfold FetchMetrics, mbind, M_bind.
    pose proof (fetchLoop_all_fail (FunctionName p) metricsGroups Hfail ∅ s) as Hloop.
    destruct (fetchLoop (FunctionName p) ∅ metricsGroups s) as [r s1].
    simpl in Hloop. by subst r.
Qed.

(** A run in which the first fetch finds no datapoints and the second one
    fails upstream: both groups are logged, all four requests are sent, and
    the record holds the values of the other two groups only. *)
Lemma FetchMetrics_skips_failed_groups_witness :
  let p := mkPlugin "myFunction" "lambda" "" "" "" in
  let s := start [answer [];
                  (None, Some (awserr_New "Throttling" "Rate exceeded"));
                  answer [sumPoint 3 (time.mkTime 900)];
                  answer [durationPoint 25 45 5 (time.mkTime 900)]] 1000 in
  let rec : gmap string any :=
    <["invocations_throttles" := Float64 3]>
      (<["duration_avg" := Float64 25]>
         (<["duration_max" := Float64 45]> (<["duration_min" := Float64 5]> ∅))) in
  (None : option error) = None ∧
  map cloudwatch.MetricName (sent (FetchMetrics p s).2)
    = map cloudwatch.MetricName (sent s)
        ++ ["Invocations"; "Errors"; "Throttles"; "Duration"] ∧
  ∃ fails, logged (FetchMetrics p s).2 = logged s ++ fails ∧
    ∀ met e typ, (met, e) ∈ fails → typ ∈ Metrics met →
      rec !! MackerelName typ = None.
Proof.
  intros p s rec.
  apply (proj1 (proj2 (FetchMetrics_skips_failed_groups p s)) rec None (FetchMetrics p s).2).
  vm_compute. reflexivity.
Defined.

Example FetchMetrics_logs_failed_groups :
  map (λ l, CloudWatchName l.1)
    (logged (FetchMetrics (mkPlugin "myFunction" "lambda" "" "" "")
       (start [answer [];
               (None, Some (awserr_New "Throttling" "Rate exceeded"));
               answer [sumPoint 3 (time.mkTime 900)];
               answer [durationPoint 25 45 5 (time.mkTime 900)]] 1000)).2)
  = ["Invocations"; "Errors"].
Proof. reflexivity. Qed.

Lemma FetchMetrics_keys {C} `{CloudWatchAPI C} (p : LambdaPlugin) (s : Sys C) rec err s' :
  FetchMetrics p s = (Val (rec, err), s') →
  ∀ k x, rec !! k = Some x → k ∈ output_names ∧ ∃ f, x = Float64 f.
Proof.
  intros Hrun. apply FetchMetrics_run in Hrun as (-> & stat & Hloop & ->).
  apply fetchLoop_metricsGroups in Hloop as (Hfl & _ & fails & _ & _ & Hkeys).
  intros k x Hk.
  apply TransformMetrics_lookup in Hk as [[->|[Hne Hk]] Hf]; [| |done].
  - split; [apply list_elem_of_here|done].
  - split; [|done]. destruct (Hkeys _ _ Hk) as [Hgroup _].
    unfold group_names in Hgroup. unfold total_key in Hne. unfold output_names.
    in_list Hgroup; [done|list_mem..].
Qed.

(** C6: every key of a record that [FetchMetrics] returns is one of the six
    output names, and every value is a [float64]; the error returned with
    it is nil. *)
Theorem FetchMetrics_output_names {C} `{CloudWatchAPI C}
    (p : LambdaPlugin) (s : Sys C) rec err s' :
  FetchMetrics p s = (Val (rec, err), s') →
  err = None ∧
  ∀ k x, rec !! k = Some x →
    k ∈ ["invocations_success"; "invocations_error"; "invocations_throttles";
         "duration_avg"; "duration_max"; "duration_min"] ∧
    ∃ f, x = Float64 f.
Proof.
  intros Hrun. split; [by apply FetchMetrics_run in Hrun as [-> _]|].
  by eapply FetchMetrics_keys.
Qed.

(** A run in which every fetch succeeds. *)
Lemma FetchMetrics_output_names_witness :
  let p := mkPlugin "myFunction" "lambda" "" "" "" in
  let s := start [answer [sumPoint 150 (time.mkTime 900)];
                  answer [sumPoint 30 (time.mkTime 900)];
                  answer [sumPoint 3 (time.mkTime 900)];
                  answer [durationPoint 25 45 5 (time.mkTime 900)]] 1000 in
  let rec : gmap string any :=
    <["invocations_success" := Float64 120]>
      (<["invocations_error" := Float64 30]>
         (<["invocations_throttles" := Float64 3]>
            (<["duration_avg" := Float64 25]>
               (<["duration_max" := Float64 45]> (<["duration_min" := Float64 5]> ∅))))) in
  (None : option error) = None ∧
  ∀ k x, rec !! k = Some x →
    k ∈ ["invocations_success"; "invocations_error"; "invocations_throttles";
         "duration_avg"; "duration_max"; "duration_min"] ∧
    ∃ f, x = Float64 f.
Proof.
  intros p s rec.
  apply (FetchMetrics_output_names p s rec None (FetchMetrics p s).2).
  vm_compute. reflexivity.
Defined.

(** C5 (amended): the array has four groups; Invocations writes its Sum
    under [TEMPORARY_invocations_total], Errors and Throttles write their
    Sum under [invocations_error] and [invocations_throttles], and Duration
    writes Average, Maximum and Minimum under [duration_avg], [duration_max]
    and [duration_min].  [TEMPORARY_invocations_total] is the key that
    [TransformMetrics] consumes, and no run of [FetchMetrics] returns it. *)
Theorem metricsGroups_table :
  map (λ g, (CloudWatchName g, map (λ m, (Type_ m, MackerelName m)) (Metrics g)))
      metricsGroups
  = [("Invocations", [("Sum", "TEMPORARY_invocations_total")]);
     ("Errors", [("Sum", "invocations_error")]);
     ("Throttles", [("Sum", "invocations_throttles")]);
     ("Duration", [("Average", "duration_avg"); ("Maximum", "duration_max");
                   ("Minimum", "duration_min")])] ∧
  (∀ (stats : gmap string any) totalCount,
     stats !! "TEMPORARY_invocations_total" = Some (Float64 totalCount) →
     is_Some (TransformMetrics stats !! "invocations_success") ∧
     TransformMetrics stats !! "TEMPORARY_invocations_total" = None) ∧
  (∀ C (api : CloudWatchAPI C) (p : LambdaPlugin) (s : Sys C) rec err s',
     FetchMetrics p s = (Val (rec, err), s') →
     rec !! "TEMPORARY_invocations_total" = None).
Proof.
  split_and!; [done| |].
  - intros stats t Ht. unfold TransformMetrics, total_key. rewrite Ht; simpl.
    rewrite lookup_delete_eq, lookup_delete_ne by done.
    split; [|done]. destruct (as_float64 (stats !! error_key));
      rewrite lookup_insert_eq; by eexists.
  - intros C api p s rec err s' Hrun.
    destruct (rec !! "TEMPORARY_invocations_total") as [x|] eqn:Hk; [exfalso|done].
    destruct (FetchMetrics_keys _ _ _ _ _ Hrun _ _ Hk) as [Hin _].
    unfold output_names in Hin. in_list Hin; discriminate.
Qed.

Lemma metricsGroups_table_witness :
  is_Some (TransformMetrics (<["TEMPORARY_invocations_total" := Float64 150]> ∅)
             !! "invocations_success") ∧
  TransformMetrics (<["TEMPORARY_invocations_total" := Float64 150]> ∅)
    !! "TEMPORARY_invocations_total" = None.
Proof.
  apply (proj1 (proj2 metricsGroups_table)
           (<["TEMPORARY_invocations_total" := Float64 150]> ∅) 150%float).
  reflexivity.
Defined.

(** C5, as stated, fails: no group of the array writes [invocations_total],
    and [TransformMetrics] leaves a value under that name where it is. *)
Lemma invocations_total_is_not_the_internal_name :
  ¬ (∃ g, g ∈ metricsGroups ∧ CloudWatchName g = "Invocations" ∧
          map (λ m, (Type_ m, MackerelName m)) (Metrics g) = [("Sum", "invocations_total")]) ∧
  TransformMetrics (<["invocations_total" := Float64 150]> ∅)
    = <["invocations_total" := Float64 150]> ∅.
Proof.
  split; [|reflexivity].
  intros (g & Hin & _ & Hmap). unfold metricsGroups in Hin.
  in_list Hin; discriminate.
Qed.

(** * Further properties of the code *)

(** ** When getLastPointFromCloudWatch panics, and what it returns *)

Lemma lastPointLoop_Panic_iff dps : ∀ latest latestDp,
  lastPointLoop dps latest latestDp = Panic ↔
  Exists (λ dp, cloudwatch.Timestamp dp = None) dps.
Proof.
  induction dps as [|dp dps IH]; intros latest latestDp; simpl.
  - split; [done|]. intros Hex. by apply Exists_nil in Hex.
  - rewrite Exists_cons. destruct (cloudwatch.Timestamp dp) as [ts|] eqn:Hts.
    + destruct (time.Before ts latest); rewrite IH;
        (split; [by right|by intros [?|?]]).
    + split; [by left|done].
Qed.

Lemma lastPointLoop_elem dps : ∀ latest latestDp dp,
  time.Before latest time.zero = false →
  lastPointLoop dps latest latestDp = Val (Some dp) →
  latestDp = Some dp ∨ (dp ∈ dps ∧ stamped_not_before time.zero dp).
Proof.
  induction dps as [|dp0 dps IH]; intros latest latestDp dp Hz Hrun; simpl in Hrun.
  - left. congruence.
  - destruct (cloudwatch.Timestamp dp0) as [ts|] eqn:Hts; [|done].
    destruct (time.Before ts latest) eqn:Hb.
    + destruct (IH _ _ _ Hz Hrun) as [?|[? ?]]; [by left|right].
      split; [by apply list_elem_of_further|done].
    + assert (Hz' : time.Before ts time.zero = false) by by eapply not_Before_trans.
      destruct (IH _ _ _ Hz' Hrun) as [[= <-]|[? ?]]; right.
      * split; [apply list_elem_of_here|by exists ts].
      * split; [by apply list_elem_of_further|done].
Qed.


(** X2: a datapoint is never returned together with an error; and a
    returned datapoint is one of the datapoints of the response, with a
    timestamp that is not before the zero instant. *)
Theorem getLastPoint_returns_from_response {C} `{CloudWatchAPI C}
    functionName metric (s : Sys C) dp e :
  (getLastPointFromCloudWatch functionName metric s).1 = Val (Some dp, e) →
  e = None ∧
  ∃ response,
    (GetMetricStatistics (cw s)
       (statisticsInput (clock s (ticks s)) functionName metric)).1
      = (Some response, None) ∧
    dp ∈ cloudwatch.Datapoints response ∧
    stamped_not_before time.zero dp.
Proof.
  rewrite getLastPointFromCloudWatch_run; simpl.
  destruct (GetMetricStatistics _ _).1 as [[response|] [e0|]]; simpl; try done.
  destruct (cloudwatch.Datapoints response) as [|dp0 dps] eqn:Hdps; [done|].
  destruct (lastPoint (dp0 :: dps)) as [r|] eqn:Hrun; [|done].
  intros [= -> <-]. split; [done|]. exists response. split; [done|].
  rewrite Hdps. unfold lastPoint in Hrun.
  apply lastPointLoop_elem in Hrun as [?|?]; done.
Qed.

Lemma getLastPoint_returns_from_response_witness :
  (None : option error) = None ∧
  ∃ response,
    (GetMetricStatistics
       (cw (start [answer [sumPoint 30 (time.mkTime 500); sumPoint 25 (time.mkTime 560)]] 1000))
       (statisticsInput (ticking 1000 0) "myFunction"
          (mkGroup "Errors" [mkMetric "invocations_error" "Sum"]))).1
      = (Some response, None) ∧
    sumPoint 25 (time.mkTime 560) ∈ cloudwatch.Datapoints response ∧
    stamped_not_before time.zero (sumPoint 25 (time.mkTime 560)).
Proof.
  apply (getLastPoint_returns_from_response (C := script) "myFunction"
           (mkGroup "Errors" [mkMetric "invocations_error" "Sum"])
           (start [answer [sumPoint 30 (time.mkTime 500); sumPoint 25 (time.mkTime 560)]] 1000)
           (sumPoint 25 (time.mkTime 560)) None).
  reflexivity.
Defined.

(** ** The order of the datapoints matters on ties only *)

Lemma NoDup_fmap_elem_inj {A B} (f : A → B) (l : list A) x y :
  NoDup (f <$> l) → x ∈ l → y ∈ l → f x = f y → x = y.
Proof.
  induction l as [|a l IH]; intros Hnd Hx Hy Hf.
  - by apply elem_of_nil in Hx.
  - rewrite fmap_cons in Hnd. apply NoDup_cons in Hnd as [Hnotin Hnd].
    apply elem_of_cons in Hx as [->|Hx]; apply elem_of_cons in Hy as [->|Hy].
    + done.
    + exfalso. apply Hnotin. rewrite Hf. apply list_elem_of_fmap. by exists y.
    + exfalso. apply Hnotin. rewrite <- Hf. apply list_elem_of_fmap. by exists x.
    + by apply IH.
Qed.

Lemma lastPoint_not_Panic dps r :
  lastPoint dps = Val r → Forall (λ dp, is_Some (cloudwatch.Timestamp dp)) dps.
Proof.
  intros Hrun. apply Forall_forall. intros dp Hin.
  destruct (cloudwatch.Timestamp dp) as [ts|] eqn:Hts; [by eexists|].
  assert (Hp : lastPoint dps = Panic); [|congruence].
  apply lastPointLoop_Panic_iff, Exists_exists. by exists dp.
Qed.

(** What the loop returns is decided by its invariant when no two
    datapoints share a timestamp. *)
Lemma loop_inv_unique dps latest latest' dp dp' :
  NoDup (cloudwatch.Timestamp <$> dps) →
  loop_inv dps latest (Some dp) → dp' ∈ dps →
  cloudwatch.Timestamp dp' = Some latest' →
  (∀ dpj tj, dpj ∈ dps → cloudwatch.Timestamp dpj = Some tj →
     time.Before latest' tj = false) →
  dp = dp'.
Proof.
  intros Hnd (i & Hi & Hts & Hmax) Hin' Hts' Hmax'.
  assert (Hin : dp ∈ dps) by (apply list_elem_of_lookup; by exists i).
  apply list_elem_of_lookup in Hin' as Hj. destruct Hj as [j Hj].
  destruct (Hmax j dp' latest' Hj Hts') as [Hle _].
  pose proof (Hmax' dp latest Hin Hts) as Hge.
  apply (NoDup_fmap_elem_inj cloudwatch.Timestamp dps); [done..|].
  rewrite Hts, Hts'. f_equal.
  apply Before_false in Hle, Hge. destruct latest, latest'; simpl in *. f_equal. lia.
Qed.

(** X3: when no two datapoints of a response carry the same timestamp,
    the order in which the response lists them does not change the outcome
    of the selection (the datapoint picked, nil, or the panic). *)
Theorem lastPoint_order_irrelevant (dps dps' : list cloudwatch.Datapoint) :
  dps ≡ₚ dps' →
  NoDup (cloudwatch.Timestamp <$> dps) →
  lastPoint dps = lastPoint dps'.
Proof.
  intros Hperm Hnd.
  destruct (lastPoint dps) as [r|] eqn:Hrun.
  2:{ symmetry. apply lastPointLoop_Panic_iff. rewrite <- Hperm.
      by apply lastPointLoop_Panic_iff in Hrun. }
  pose proof (lastPoint_not_Panic _ _ Hrun) as Hts.
  assert (Hts' : Forall (λ dp, is_Some (cloudwatch.Timestamp dp)) dps')
    by by rewrite <- Hperm.
  destruct (lastPoint_inv _ Hts) as (latest & r0 & Hrun0 & Hinv).
  rewrite Hrun in Hrun0. injection Hrun0 as <-.
  destruct (lastPoint_inv _ Hts') as (latest' & r' & Hrun' & Hinv').
  rewrite Hrun'. f_equal.
  destruct r as [dp|], r' as [dp'|]; simpl in Hinv'.
  - f_equal. destruct Hinv' as (i' & Hi' & Hdp' & Hmax').
    eapply (loop_inv_unique dps); [done..| | |].
    + rewrite Hperm. apply list_elem_of_lookup. by exists i'.
    + exact Hdp'.
    + intros dpj tj Hin Htj. rewrite Hperm in Hin.
      apply list_elem_of_lookup in Hin as [j Hj]. by destruct (Hmax' j dpj tj Hj Htj).
  - exfalso. destruct Hinv' as [_ Hall]. rewrite <- Hperm in Hall.
    unfold lastPoint in Hrun. by rewrite lastPointLoop_all_before in Hrun.
  - exfalso. destruct Hinv as [_ Hall]. rewrite Hperm in Hall.
    unfold lastPoint in Hrun'. by rewrite lastPointLoop_all_before in Hrun'.
  - done.
Qed.

Lemma lastPoint_order_irrelevant_witness :
  lastPoint [sumPoint 30 (time.mkTime 500); sumPoint 25 (time.mkTime 560);
             sumPoint 35 (time.mkTime 440)]
  = lastPoint [sumPoint 25 (time.mkTime 560); sumPoint 35 (time.mkTime 440);
               sumPoint 30 (time.mkTime 500)].
Proof.
  apply lastPoint_order_irrelevant.
  - apply Permutation_cons_append.
  - repeat (apply NoDup_cons; split; [intros Hin; in_list Hin; discriminate|]).
    apply NoDup_nil_2.
Defined.

(** ** TransformMetrics, applied again *)

Lemma TransformMetrics_total stats :
  as_float64 (TransformMetrics stats !! total_key) = None.
Proof.
  unfold TransformMetrics.
  destruct (as_float64 (stats !! total_key)) as [t|] eqn:Ht; [|done].
  by rewrite lookup_delete_eq.
Qed.

(** X4: [TransformMetrics] is idempotent, on every record (whatever the
    dynamic types of its values): once the total is consumed, a second
    pass changes nothing, and in particular does not recompute the success
    value from the error count. *)
Theorem TransformMetrics_idempotent (stats : gmap string any) :
  TransformMetrics (TransformMetrics stats) = TransformMetrics stats.
Proof.
  unfold TransformMetrics at 1. by rewrite TransformMetrics_total.
Qed.

(** ** The inner loop of FetchMetrics *)

Lemma mergeStat_statistic v stat typ :
  mergeStat v stat typ =
    match statistic typ with
    | Some f => storeField stat (MackerelName typ) v f
    | None => Val stat
    end.
Proof.
  unfold mergeStat, statistic.
  repeat match goal with
         | |- context [String.eqb ?a ?b] => destruct (String.eqb a b)
         end; done.
Qed.

Lemma mergeLoop_frame types : ∀ stat stat' v k,
  mergeLoop stat v types = Val stat' →
  k ∉ MackerelName <$> types →
  stat' !! k = stat !! k.
Proof.
  induction types as [|typ types IH]; intros stat stat' v k Hrun Hk; simpl in *.
  - by injection Hrun as <-.
  - apply not_elem_of_cons in Hk as [Hne Hk].
    destruct (mergeStat_cases v typ) as [Hp|[Hid|[x Hins]]].
    + by rewrite Hp in Hrun.
    + rewrite Hid in Hrun. by eapply IH.
    + rewrite Hins in Hrun. simpl in Hrun.
      erewrite IH by done. by rewrite lookup_insert_ne.
Qed.

Lemma mergeLoop_writes types : ∀ stat stat' d,
  NoDup (MackerelName <$> types) →
  mergeLoop stat (Some d) types = Val stat' →
  ∀ typ, typ ∈ types →
    stat' !! MackerelName typ =
      match statistic typ with
      | Some f => Float64 <$> f d
      | None => stat !! MackerelName typ
      end.
Proof.
  induction types as [|typ0 types IH]; intros stat stat' d Hnd Hrun typ Hin; simpl in *.
  - by apply elem_of_nil in Hin.
  - apply NoDup_cons in Hnd as [Hnotin Hnd].
    rewrite mergeStat_statistic in Hrun.
    destruct (mergeStat (Some d) stat typ0) as [stat1|] eqn:Hstep;
      rewrite mergeStat_statistic in Hstep;
      [|destruct (statistic typ0) as [f0|]; [rewrite Hstep in Hrun|]; done].
    assert (Hrest : mergeLoop stat1 (Some d) types = Val stat').
    { destruct (statistic typ0); by rewrite Hstep in Hrun. }
    clear Hrun.
    apply elem_of_cons in Hin as [->|Hin].
    + rewrite (mergeLoop_frame _ _ _ _ _ Hrest Hnotin).
      destruct (statistic typ0) as [f0|]; [|by injection Hstep as <-].
      unfold storeField in Hstep. destruct (f0 d) as [x|]; [|done].
      injection Hstep as <-. by rewrite lookup_insert_eq.
    + rewrite (IH _ _ _ Hnd Hrest typ Hin).
      destruct (statistic typ) as [f|]; [done|].
      assert (Hne : MackerelName typ0 ≠ MackerelName typ).
      { intros Heq. apply Hnotin. rewrite Heq. apply list_elem_of_fmap. by exists typ. }
      destruct (statistic typ0) as [f0|]; [|by injection Hstep as <-].
      unfold storeField in Hstep. destruct (f0 d) as [x|]; [|done].
      injection Hstep as <-. by rewrite lookup_insert_ne.
Qed.

(** X5: a merge that succeeds leaves every key that is not a name of the
    group as it was; when the names of the group are distinct, each name
    with a known statistic holds the value of that field of the datapoint
    as a [float64], whatever the record held before, and a name with an
    unknown statistic keeps its value. *)
Theorem mergeStatsFromDatapoint_writes
    (stats stats' : gmap string any) (d : cloudwatch.Datapoint) (mg : metricsGroup) :
  NoDup (MackerelName <$> Metrics mg) →
  mergeStatsFromDatapoint stats (Some d) mg = Val stats' →
  (∀ k, k ∉ MackerelName <$> Metrics mg → stats' !! k = stats !! k) ∧
  (∀ typ, typ ∈ Metrics mg →
     stats' !! MackerelName typ =
       match statistic typ with
       | Some f => Float64 <$> f d
       | None => stats !! MackerelName typ
       end).
Proof.
  unfold mergeStatsFromDatapoint. intros Hnd Hrun. split.
  - intros k Hk. by eapply mergeLoop_frame.
  - by eapply mergeLoop_writes.
Qed.

Lemma mergeStatsFromDatapoint_writes_witness :
  let d := durationPoint 25 45 5 (time.mkTime 900) in
  let mg := mkGroup "Duration" [mkMetric "duration_avg" "Average";
                                mkMetric "duration_max" "Maximum";
                                mkMetric "duration_min" "Minimum"] in
  let stats : gmap string any := <["duration_avg" := Float64 1]> (<["other" := Int 7]> ∅) in
  let stats' : gmap string any :=
    <["duration_avg" := Float64 25]>
      (<["duration_max" := Float64 45]>
         (<["duration_min" := Float64 5]> (<["other" := Int 7]> ∅))) in
  (∀ k, k ∉ MackerelName <$> Metrics mg → stats' !! k = stats !! k) ∧
  (∀ typ, typ ∈ Metrics mg →
     stats' !! MackerelName typ =
       match statistic typ with
       | Some f => Float64 <$> f d
       | None => stats !! MackerelName typ
       end).
Proof.
  intros d mg stats stats'.
  apply (mergeStatsFromDatapoint_writes stats stats' d mg).
  - repeat (apply NoDup_cons; split; [intros Hin; in_list Hin; discriminate|]).
    apply NoDup_nil_2.
  - vm_compute. reflexivity.
Defined.

Lemma mergeLoop_succeeds_iff types : ∀ (stats : gmap string any) dp,
  (∃ stats', mergeLoop stats dp types = Val stats') ↔
  Forall (λ typ, ∀ f, statistic typ = Some f → ∃ d, dp = Some d ∧ is_Some (f d)) types.
Proof.
  induction types as [|typ types IH]; intros stats dp; simpl.
  - split; [constructor|]. by eexists.
  - rewrite Forall_cons, <- (IH stats). rewrite mergeStat_statistic.
    destruct (statistic typ) as [f|] eqn:Hf; simpl.
    + unfold storeField. destruct dp as [d|]; [destruct (f d) as [x|] eqn:Hx|]; simpl.
      * rewrite (IH (<[MackerelName typ:=Float64 x]> stats)), <- (IH stats).
        split; [intros Hrun; split; [|done]|tauto].
        intros f' [= <-]. exists d. split; [done|by eexists].
      * split; [by intros [? ?]|]. intros [Hreq _].
        destruct (Hreq f eq_refl) as (d' & [= <-] & Hsome).
        rewrite Hx in Hsome. by destruct Hsome.
      * split; [by intros [? ?]|]. intros [Hreq _].
        by destruct (Hreq f eq_refl) as (d' & [=] & _).
    + split; [intros Hrun; split; [done|done]|tauto].
Qed.

(** X6: a merge succeeds exactly when, for every metric of the group whose
    statistic is one of the four, the datapoint is not nil and has that
    field; otherwise it panics.  A nil datapoint is merged only by a group
    without any known statistic, and then the record is left as it is. *)
Theorem mergeStatsFromDatapoint_succeeds_iff
    (stats : gmap string any) (dp : option cloudwatch.Datapoint) (mg : metricsGroup) :
  ((∃ stats', mergeStatsFromDatapoint stats dp mg = Val stats') ↔
   Forall (λ typ, ∀ f, statistic typ = Some f → ∃ d, dp = Some d ∧ is_Some (f d))
          (Metrics mg)) ∧
  (mergeStatsFromDatapoint stats dp mg = Panic ∨
   ∃ stats', mergeStatsFromDatapoint stats dp mg = Val stats') ∧
  (∀ stats', mergeStatsFromDatapoint stats None mg = Val stats' → stats' = stats).
Proof.
  unfold mergeStatsFromDatapoint. split_and!.
  - apply mergeLoop_succeeds_iff.
  - destruct (mergeLoop stats dp (Metrics mg)); [right; by eexists|by left].
  - intros stats' Hrun. apply map_eq. intros k.
    assert (Hall : Forall (λ typ, statistic typ = None) (Metrics mg)).
    { assert (Hex : ∃ st, mergeLoop stats None (Metrics mg) = Val st) by by eexists.
      apply mergeLoop_succeeds_iff in Hex. eapply Forall_impl; [done|]. simpl.
      intros typ Hreq. destruct (statistic typ) as [f|]; [|done].
      by destruct (Hreq f eq_refl) as (? & [=] & _). }
    clear -Hrun Hall. revert stats Hrun.
    induction Hall as [|typ types Hnone _ IH]; intros stats Hrun; simpl in Hrun.
    + by injection Hrun as <-.
    + rewrite mergeStat_statistic, Hnone in Hrun. by apply IH.
Qed.

Lemma mergeStatsFromDatapoint_succeeds_iff_witness :
  ∃ stats', mergeStatsFromDatapoint ∅ (Some (durationPoint 25 45 5 (time.mkTime 900)))
              (mkGroup "Duration" [mkMetric "duration_avg" "Average";
                                   mkMetric "duration_p99" "p99"])
            = Val stats'.
Proof.
  apply (proj2 (proj1 (mergeStatsFromDatapoint_succeeds_iff ∅
                         (Some (durationPoint 25 45 5 (time.mkTime 900)))
                         (mkGroup "Duration" [mkMetric "duration_avg" "Average";
                                              mkMetric "duration_p99" "p99"])))).
  repeat constructor; intros f Hf; vm_compute in Hf; [|discriminate].
  injection Hf as <-. eexists. split; [reflexivity|]. eexists. reflexivity.
Defined.

Example merge_nil_into_unknown_statistic :
  mergeStatsFromDatapoint (<["other" := Int 7]> ∅) None
    (mkGroup "Duration" [mkMetric "duration_p99" "p99"])
  = Val (<["other" := Int 7]> ∅).
Proof. reflexivity. Qed.

(** X7: merging two groups that share no name gives the same outcome in
    either order, also with two different datapoints and when one of the
    merges panics. *)
Theorem mergeStatsFromDatapoint_commute (stats : gmap string any)
    (dp1 dp2 : option cloudwatch.Datapoint) (mg1 mg2 : metricsGroup) :
  (∀ k, k ∈ MackerelName <$> Metrics mg1 → k ∉ MackerelName <$> Metrics mg2) →
  (mergeStatsFromDatapoint stats dp1 mg1 ≫= λ stats', mergeStatsFromDatapoint stats' dp2 mg2)
  = (mergeStatsFromDatapoint stats dp2 mg2 ≫= λ stats', mergeStatsFromDatapoint stats' dp1 mg1).
Proof.
  unfold mergeStatsFromDatapoint, mbind, res_bind. intros Hdisj.
  destruct (mergeLoop stats dp1 (Metrics mg1)) as [s1|] eqn:H1.
  - destruct (mergeLoop s1 dp2 (Metrics mg2)) as [s12|] eqn:H12.
    + destruct (mergeLoop_twice _ _ _ _ H12 stats) as (s2 & H2 & R2).
      destruct (mergeLoop_twice _ _ _ _ H1 s2) as (s21 & H21 & R1).
      rewrite H2, H21. f_equal. apply map_eq. intros k.
      destruct (decide (k ∈ MackerelName <$> Metrics mg1)) as [Hin|Hnotin].
      * rewrite (mergeLoop_frame _ _ _ _ _ H12 (Hdisj _ Hin)).
        pose proof (mergeLoop_frame _ _ _ _ _ H2 (Hdisj _ Hin)) as F2.
        destruct (R1 k) as [->|[-> ->]]; [done|by rewrite F2].
      * rewrite (mergeLoop_frame _ _ _ _ _ H21 Hnotin).
        pose proof (mergeLoop_frame _ _ _ _ _ H1 Hnotin) as F1.
        destruct (R2 k) as [->|[-> ->]]; [done|by rewrite F1].
    + destruct (mergeLoop stats dp2 (Metrics mg2)) as [s2|] eqn:H2; [|done].
      destruct (mergeLoop_twice _ _ _ _ H2 s1) as (s12 & H12' & _). congruence.
  - destruct (mergeLoop stats dp2 (Metrics mg2)) as [s2|] eqn:H2; [|done].
    destruct (mergeLoop s2 dp1 (Metrics mg1)) as [s21|] eqn:H21; [|done].
    destruct (mergeLoop_twice _ _ _ _ H21 stats) as (s1 & H1' & _). congruence.
Qed.

Lemma mergeStatsFromDatapoint_commute_witness :
  let inv := mkGroup "Invocations" [mkMetric "TEMPORARY_invocations_total" "Sum"] in
  let dur := mkGroup "Duration" [mkMetric "duration_avg" "Average";
                                 mkMetric "duration_max" "Maximum";
                                 mkMetric "duration_min" "Minimum"] in
  let dp1 := Some (sumPoint 150 (time.mkTime 900)) in
  let dp2 := Some (durationPoint 25 45 5 (time.mkTime 900)) in
  (mergeStatsFromDatapoint ∅ dp1 inv ≫= λ stats', mergeStatsFromDatapoint stats' dp2 dur)
  = (mergeStatsFromDatapoint ∅ dp2 dur ≫= λ stats', mergeStatsFromDatapoint stats' dp1 inv).
Proof.
  intros inv dur dp1 dp2.
  apply (mergeStatsFromDatapoint_commute ∅ dp1 dp2 inv dur).
  intros k Hin Hin'. simpl in Hin, Hin'. in_list Hin. in_list Hin'; discriminate.
Defined.

(** ** Which keys a run of FetchMetrics returns *)

Lemma mergeLoop_present types : ∀ stat stat' v,
  mergeLoop stat v types = Val stat' →
  (∀ k, is_Some (stat !! k) → is_Some (stat' !! k)) ∧
  (∀ typ, typ ∈ types → is_Some (statistic typ) → is_Some (stat' !! MackerelName typ)).
Proof.
  induction types as [|typ0 types IH]; intros stat stat' v Hrun; simpl in Hrun.
  - injection Hrun as <-. split; [done|]. intros typ Hin. by apply elem_of_nil in Hin.
  - rewrite mergeStat_statistic in Hrun.
    destruct (statistic typ0) as [f0|] eqn:Hf0.
    + unfold storeField in Hrun. destruct v as [d|]; [|done].
      destruct (f0 d) as [x|]; [|done]. simpl in Hrun.
      destruct (IH _ _ _ Hrun) as [Hmono Hnew]. split.
      * intros k Hk. apply Hmono.
        destruct (decide (MackerelName typ0 = k)) as [<-|Hne];
          [rewrite lookup_insert_eq; by eexists|by rewrite lookup_insert_ne].
      * intros typ Hin Hknown. apply elem_of_cons in Hin as [->|Hin]; [|by apply Hnew].
        apply Hmono. rewrite lookup_insert_eq. by eexists.
    + simpl in Hrun. destruct (IH _ _ _ Hrun) as [Hmono Hnew]. split; [done|].
      intros typ Hin Hknown. apply elem_of_cons in Hin as [->|Hin]; [|by apply Hnew].
      rewrite Hf0 in Hknown. by destruct Hknown.
Qed.

Lemma fetchLoop_present {C} `{CloudWatchAPI C} functionName mets :
  ∀ stat (s : Sys C) stat' s',
  fetchLoop functionName stat mets s = (Val stat', s') →
  (∀ k, is_Some (stat !! k) → is_Some (stat' !! k)) ∧
  ∃ fails, logged s' = logged s ++ fails ∧
    ∀ met, met ∈ mets →
      (∃ e, (met, e) ∈ fails) ∨
      (∀ typ, typ ∈ Metrics met → is_Some (statistic typ) →
         is_Some (stat' !! MackerelName typ)).
Proof.
  induction mets as [|met rest IH]; intros stat s stat' s' Hrun; simpl in Hrun.
  - injection Hrun as <- <-. split; [done|]. exists []. rewrite app_nil_r.
    split; [done|]. intros met Hin. by apply elem_of_nil in Hin.
  - unfold mbind, M_bind in Hrun.
    destruct (fetchGroup functionName stat met s) as [[stat1|] s1] eqn:Hround; [|done].
    apply fetchGroup_step in Hround as [_ Hcases].
    apply IH in Hrun as (Hmono & fails & Hlog & Hrest).
    destruct Hcases as [[Hlog1 [v Hmerge]]|[-> [e Hlog1]]].
    + apply mergeLoop_present in Hmerge as [Hmono1 Hnew]. split; [by auto|].
      exists fails. split; [congruence|]. intros met' Hin.
      apply elem_of_cons in Hin as [->|Hin]; [right|by apply Hrest].
      intros typ Htyp Hknown. by apply Hmono, Hnew.
    + split; [done|]. exists ((met, e) :: fails). split.
      { rewrite Hlog, Hlog1. by rewrite <- app_assoc. }
      intros met' Hin. apply elem_of_cons in Hin as [->|Hin].
      * left. exists e. apply list_elem_of_here.
      * destruct (Hrest met' Hin) as [[e' He']|Hall]; [left|by right].
        exists e'. by apply list_elem_of_further.
Qed.

Lemma metricsGroups_CloudWatchName met met' :
  met ∈ metricsGroups → met' ∈ metricsGroups →
  CloudWatchName met = CloudWatchName met' → met = met'.
Proof.
  unfold metricsGroups. intros Hmet Hmet' Heq.
  in_list Hmet; in_list Hmet'; first [reflexivity | discriminate].
Qed.

Lemma metricsGroups_statistic met typ :
  met ∈ metricsGroups → typ ∈ Metrics met → is_Some (statistic typ).
Proof.
  unfold metricsGroups. intros Hmet Htyp.
  in_list Hmet; simpl in Htyp; in_list Htyp; by eexists.
Qed.

(** After the outer loop, a name of a group is in the record exactly when
    the fetch of that group is not among the logged failures. *)
Lemma fetched_key_iff {C} `{CloudWatchAPI C} functionName (s : Sys C) stat s' :
  fetchLoop functionName ∅ metricsGroups s = (Val stat, s') →
  float64_record stat ∧ (∀ k, is_Some (stat !! k) → k ∈ group_names) ∧
  ∃ fails, logged s' = logged s ++ fails ∧
    ∀ met typ, met ∈ metricsGroups → typ ∈ Metrics met →
      (is_Some (stat !! MackerelName typ) ↔ ¬ failed fails (CloudWatchName met)).
Proof.
  intros Hrun.
  destruct (fetchLoop_present _ _ _ _ _ _ Hrun) as (_ & fails' & Hlog' & Hpresent).
  apply fetchLoop_metricsGroups in Hrun as (Hfl & _ & fails & Hlog & Hin & Hkeys).
  assert (fails' = fails) as -> by (apply (app_inv_head (logged s)); congruence).
  split_and!; [done| |exists fails; split; [done|]].
  { intros k [x Hk]. by destruct (Hkeys k x Hk). }
  intros met typ Hmet Htyp. split.
  - intros [x Hk] (met' & e & Hfail & Hname).
    assert (met' = met) as -> by (eapply metricsGroups_CloudWatchName; eauto).
    destruct (Hkeys _ _ Hk) as [_ Hnot]. apply (Hnot met e Hfail).
    apply list_elem_of_fmap. by exists typ.
  - intros Hnot. destruct (Hpresent met Hmet) as [[e He]|Hall].
    + exfalso. apply Hnot. by exists met, e.
    + apply Hall; [done|]. by eapply metricsGroups_statistic.
Qed.

Lemma TransformMetrics_success_iff stats :
  float64_record stats → stats !! success_key = None →
  (is_Some (TransformMetrics stats !! success_key) ↔ is_Some (stats !! total_key)).
Proof.
  intros Hfl Hnone. unfold TransformMetrics.
  destruct (stats !! total_key) as [x|] eqn:Hx.
  - destruct (Hfl _ _ Hx) as [t ->]. simpl.
    rewrite lookup_delete_ne by done.
    destruct (as_float64 (stats !! error_key)); rewrite lookup_insert_eq;
      (split; intros _; by eexists).
  - simpl. rewrite Hnone. split; intros [? [=]].
Qed.

(** X8: in a run of [FetchMetrics] that returns, each key is in the record
    exactly when the fetch of its group did not fail: [invocations_success]
    stands for the Invocations group (whether or not the Errors group was
    fetched), and the three duration keys come or go together. *)
Theorem FetchMetrics_key_iff_fetched {C} `{CloudWatchAPI C}
    (p : LambdaPlugin) (s : Sys C) rec err s' :
  FetchMetrics p s = (Val (rec, err), s') →
  ∃ fails, logged s' = logged s ++ fails ∧
    (is_Some (rec !! "invocations_success") ↔ ¬ failed fails "Invocations") ∧
    (is_Some (rec !! "invocations_error") ↔ ¬ failed fails "Errors") ∧
    (is_Some (rec !! "invocations_throttles") ↔ ¬ failed fails "Throttles") ∧
    (∀ k, k ∈ ["duration_avg"; "duration_max"; "duration_min"] →
       (is_Some (rec !! k) ↔ ¬ failed fails "Duration")).
Proof.
  intros Hrun. apply FetchMetrics_run in Hrun as (_ & stat & Hloop & ->).
  apply fetched_key_iff in Hloop as (Hfl & Hnames & fails & Hlog & Hiff).
  exists fails. split; [done|].
  assert (Hnone : stat !! success_key = None).
  { destruct (stat !! success_key) eqn:Hk; [exfalso|done].
    assert (Hin : success_key ∈ group_names) by (apply Hnames; by eexists).
    unfold group_names in Hin. in_list Hin; discriminate. }
  split_and!.
  - rewrite (TransformMetrics_success_iff _ Hfl Hnone).
    apply (Hiff (mkGroup "Invocations" [mkMetric "TEMPORARY_invocations_total" "Sum"])
                (mkMetric "TEMPORARY_invocations_total" "Sum")); list_mem.
  - rewrite TransformMetrics_other by done.
    apply (Hiff (mkGroup "Errors" [mkMetric "invocations_error" "Sum"])
                (mkMetric "invocations_error" "Sum")); list_mem.
  - rewrite TransformMetrics_other by done.
    apply (Hiff (mkGroup "Throttles" [mkMetric "invocations_throttles" "Sum"])
                (mkMetric "invocations_throttles" "Sum")); list_mem.
  - intros k Hk.
    in_list Hk; rewrite TransformMetrics_other by done;
      [apply (Hiff (mkGroup "Duration" [mkMetric "duration_avg" "Average";
                                        mkMetric "duration_max" "Maximum";
                                        mkMetric "duration_min" "Minimum"])
                   (mkMetric "duration_avg" "Average"))
      |apply (Hiff (mkGroup "Duration" [mkMetric "duration_avg" "Average";
                                        mkMetric "duration_max" "Maximum";
                                        mkMetric "duration_min" "Minimum"])
                   (mkMetric "duration_max" "Maximum"))
      |apply (Hiff (mkGroup "Duration" [mkMetric "duration_avg" "Average";
                                        mkMetric "duration_max" "Maximum";
                                        mkMetric "duration_min" "Minimum"])
                   (mkMetric "duration_min" "Minimum"))]; list_mem.
Qed.

Lemma FetchMetrics_key_iff_fetched_witness :
  let p := mkPlugin "myFunction" "lambda" "" "" "" in
  let s := start [answer [sumPoint 150 (time.mkTime 900)];
                  (None, Some (awserr_New "Throttling" "Rate exceeded"));
                  answer [sumPoint 3 (time.mkTime 900)];
                  answer [durationPoint 25 45 5 (time.mkTime 900)]] 1000 in
  let rec : gmap string any :=
    <["invocations_success" := Float64 150]>
      (<["invocations_throttles" := Float64 3]>
         (<["duration_avg" := Float64 25]>
            (<["duration_max" := Float64 45]> (<["duration_min" := Float64 5]> ∅)))) in
  ∃ fails, logged (FetchMetrics p s).2 = logged s ++ fails ∧
    (is_Some (rec !! "invocations_success") ↔ ¬ failed fails "Invocations") ∧
    (is_Some (rec !! "invocations_error") ↔ ¬ failed fails "Errors") ∧
    (is_Some (rec !! "invocations_throttles") ↔ ¬ failed fails "Throttles") ∧
    (∀ k, k ∈ ["duration_avg"; "duration_max"; "duration_min"] →
       (is_Some (rec !! k) ↔ ¬ failed fails "Duration")).
Proof.
  intros p s rec.
  apply (FetchMetrics_key_iff_fetched p s rec None (FetchMetrics p s).2).
  vm_compute. reflexivity.
Defined.

Lemma statistic_complete d typ f :
  complete d → statistic typ = Some f → is_Some (f d).
Proof.
  intros (Havg & Hmax & Hmin & Hsum & _). unfold statistic.
  repeat match goal with
         | |- context [String.eqb ?a ?b] => destruct (String.eqb a b)
         end; intros [= <-]; done.
Qed.

Lemma getLastPoint_complete {C} `{CloudWatchAPI C} functionName metric (s : Sys C) :
  (∀ (c : C) input, ∃ response,
     (GetMetricStatistics c input).1 = (Some response, None) ∧
     cloudwatch.Datapoints response ≠ [] ∧
     Forall complete (cloudwatch.Datapoints response)) →
  ∃ d, (getLastPointFromCloudWatch functionName metric s).1 = Val (Some d, None) ∧
       complete d.
Proof.
  intros Hgood. rewrite getLastPointFromCloudWatch_run; simpl.
  destruct (Hgood (cw s) (statisticsInput (clock s (ticks s)) functionName metric))
    as (response & -> & Hne & Hall); simpl.
  destruct (cloudwatch.Datapoints response) as [|dp0 dps] eqn:Hdps; [done|].
  assert (Hts : Forall (λ dp, is_Some (cloudwatch.Timestamp dp)) (dp0 :: dps)).
  { eapply Forall_impl; [done|]. intros dp (_ & _ & _ & _ & ts & Hts & _). by eexists. }
  destruct (lastPoint_inv _ Hts) as (latest & r & -> & Hinv).
  destruct r as [d|]; simpl in Hinv.
  - exists d. split; [done|]. destruct Hinv as (i & Hi & _).
    eapply Forall_lookup_1; done.
  - exfalso. destruct Hinv as [_ Hbefore].
    apply Forall_cons in Hbefore as [(ts & Hts0 & Hb) _].
    apply Forall_cons in Hall as [(_ & _ & _ & _ & ts' & Hts0' & Hnb) _].
    congruence.
Qed.

Lemma fetchLoop_complete {C} `{CloudWatchAPI C} functionName mets :
  (∀ (c : C) input, ∃ response,
     (GetMetricStatistics c input).1 = (Some response, None) ∧
     cloudwatch.Datapoints response ≠ [] ∧
     Forall complete (cloudwatch.Datapoints response)) →
  ∀ stat (s : Sys C), ∃ stat' s',
    fetchLoop functionName stat mets s = (Val stat', s') ∧ logged s' = logged s.
Proof.
  intros Hgood. induction mets as [|met rest IH]; intros stat s; simpl.
  - by exists stat, s.
  - unfold mbind, M_bind. rewrite fetchGroup_run.
    destruct (getLastPoint_complete functionName met s Hgood) as (d & Hget & Hd).
    pose proof (getLastPointFromCloudWatch_run functionName met s) as Hrun.
    simpl in Hrun.
    destruct (getLastPointFromCloudWatch functionName met s) as [r s1].
    simpl in Hget. subst r. injection Hrun as _ ->.
    assert (Hmerge : ∃ stat1, mergeStatsFromDatapoint stat (Some d) met = Val stat1).
    { apply mergeLoop_succeeds_iff, Forall_forall. intros typ _ f Hf.
      exists d. split; [done|by eapply statistic_complete]. }
    destruct Hmerge as [stat1 ->].
    destruct (IH stat1 (after_call s
                (statisticsInput (clock s (ticks s)) functionName met)
                (GetMetricStatistics (cw s)
                   (statisticsInput (clock s (ticks s)) functionName met)).2))
      as (stat' & s' & -> & Hlog).
    by exists stat', s'.
Qed.

(** X9: when the client answers every request with a response whose
    datapoints (at least one) all have their four statistics and a
    timestamp that is not before the zero instant, [FetchMetrics] returns,
    writes nothing to the log, and its record has exactly the six output
    keys. *)
Theorem FetchMetrics_complete_run {C} `{CloudWatchAPI C} (p : LambdaPlugin) (s : Sys C) :
  (∀ (c : C) input, ∃ response,
     (GetMetricStatistics c input).1 = (Some response, None) ∧
     cloudwatch.Datapoints response ≠ [] ∧
     Forall complete (cloudwatch.Datapoints response)) →
  ∃ rec s',
    FetchMetrics p s = (Val (rec, None), s') ∧
    logged s' = logged s ∧
    ∀ k, is_Some (rec !! k) ↔
         k ∈ ["invocations_success"; "invocations_error"; "invocations_throttles";
              "duration_avg"; "duration_max"; "duration_min"].
Proof.
  intros Hgood.
  destruct (fetchLoop_complete (FunctionName p) metricsGroups Hgood ∅ s)
    as (stat & s' & Hloop & Hlog).
  assert (Hrun : FetchMetrics p s = (Val (TransformMetrics stat, None), s')).
  { unfold FetchMetrics, mbind, M_bind. by rewrite Hloop. }
  exists (TransformMetrics stat), s'. split_and!; [done..|].
  intros k. split.
  { intros [x Hk]. by destruct (FetchMetrics_keys _ _ _ _ _ Hrun _ _ Hk). }
  apply fetched_key_iff in Hloop as (Hfl & Hnames & fails & Hlog' & Hiff).
  assert (fails = []) as ->.
  { apply (app_inv_head (logged s)). rewrite app_nil_r. congruence. }
  assert (Hnot : ∀ name, ¬ failed [] name).
  { intros name (met & e & Hin & _). by apply elem_of_nil in Hin. }
  assert (Hnone : stat !! success_key = None).
  { destruct (stat !! success_key) eqn:Hk; [exfalso|done].
    assert (Hin : success_key ∈ group_names) by (apply Hnames; by eexists).
    unfold group_names in Hin. in_list Hin; discriminate. }
  intros Hk. in_list Hk.
  - apply (TransformMetrics_success_iff _ Hfl Hnone).
    apply (Hiff (mkGroup "Invocations" [mkMetric "TEMPORARY_invocations_total" "Sum"])
                (mkMetric "TEMPORARY_invocations_total" "Sum")); [list_mem..|apply Hnot].
  - rewrite TransformMetrics_other by done.
    apply (Hiff (mkGroup "Errors" [mkMetric "invocations_error" "Sum"])
                (mkMetric "invocations_error" "Sum")); [list_mem..|apply Hnot].
  - rewrite TransformMetrics_other by done.
    apply (Hiff (mkGroup "Throttles" [mkMetric "invocations_throttles" "Sum"])
                (mkMetric "invocations_throttles" "Sum")); [list_mem..|apply Hnot].
  - rewrite TransformMetrics_other by done.
    apply (Hiff (mkGroup "Duration" [mkMetric "duration_avg" "Average";
                                     mkMetric "duration_max" "Maximum";
                                     mkMetric "duration_min" "Minimum"])
                (mkMetric "duration_avg" "Average")); [list_mem..|apply Hnot].
  - rewrite TransformMetrics_other by done.
    apply (Hiff (mkGroup "Duration" [mkMetric "duration_avg" "Average";
                                     mkMetric "duration_max" "Maximum";
                                     mkMetric "duration_min" "Minimum"])
                (mkMetric "duration_max" "Maximum")); [list_mem..|apply Hnot].
  - rewrite TransformMetrics_other by done.
    apply (Hiff (mkGroup "Duration" [mkMetric "duration_avg" "Average";
                                     mkMetric "duration_max" "Maximum";
                                     mkMetric "duration_min" "Minimum"])
                (mkMetric "duration_min" "Minimum")); [list_mem..|apply Hnot].
Qed.

Lemma FetchMetrics_complete_run_witness :
  let p := mkPlugin "myFunction" "lambda" "" "" "" in
  let s := start Steady 1000 in
  ∃ rec s',
    FetchMetrics p s = (Val (rec, None), s') ∧
    logged s' = logged s ∧
    ∀ k, is_Some (rec !! k) ↔
         k ∈ ["invocations_success"; "invocations_error"; "invocations_throttles";
              "duration_avg"; "duration_max"; "duration_min"].
Proof.
  intros p s. apply (FetchMetrics_complete_run (C := steady) p s).
  intros c input. exists (cloudwatch.mkOutput None [steadyPoint]).
  split; [reflexivity|]. split; [discriminate|].
  apply Forall_cons. split; [|constructor].
  unfold complete, steadyPoint; simpl. split_and!; by eexists.
Defined.

Example FetchMetrics_steady :
  (FetchMetrics (mkPlugin "myFunction" "lambda" "" "" "") (start Steady 1000)).1
  = Val (<["invocations_success" := Float64 0]>
           (<["invocations_error" := Float64 150]>
              (<["invocations_throttles" := Float64 150]>
                 (<["duration_avg" := Float64 25]>
                    (<["duration_max" := Float64 45]>
                       (<["duration_min" := Float64 5]> ∅))))), None).
Proof. vm_compute. reflexivity. Qed.

(** ** prepare *)

Example TestPrepare :
  prepare (inl tt) (mkPlugin "" "lambda" "" "" "MySuperRegion") None
  = (Some (cloudwatch_New tt [aws.mkConfig None (Some "MySuperRegion")]), None).
Proof. reflexivity. Qed.

Lemma eqb_empty_false s : negb (String.eqb s "") = true ↔ s ≠ "".
Proof.
  rewrite negb_true_iff. split.
  - intros Hneq ->. by rewrite String.eqb_refl in Hneq.
  - intros Hne. by apply String.eqb_neq.
Qed.

(** X10: [prepare] returns the error of [session.NewSession] and leaves
    [p.CloudWatch] as it was; otherwise it returns no error and a client
    with one configuration, which has static credentials (the two keys and
    an empty token) exactly when both the access key id and the secret
    access key are non-empty, so that a lone key is ignored, and has the
    region exactly when it is non-empty. *)
Theorem prepare_config {Session : Type} (NewSession : Session + error)
    (p : LambdaPlugin) (cw0 : option (CloudWatchClient Session)) :
  match NewSession with
  | inr err => prepare NewSession p cw0 = (cw0, Some err)
  | inl sess =>
      ∃ config,
        prepare NewSession p cw0 = (Some (cloudwatch_New sess [config]), None) ∧
        (aws.Credentials config = None ↔ AccessKeyID p = "" ∨ SecretAccessKey p = "") ∧
        (∀ creds, aws.Credentials config = Some creds →
           creds = aws.NewStaticCredentials (AccessKeyID p) (SecretAccessKey p) "") ∧
        (aws.Region config = None ↔ Region p = "") ∧
        (∀ region, aws.Region config = Some region → region = Region p)
  end.
Proof.
  destruct NewSession as [sess|err]; [|done].
  unfold prepare. eexists. split; [reflexivity|].
  destruct (negb (String.eqb (AccessKeyID p) "")) eqn:Hid;
    destruct (negb (String.eqb (SecretAccessKey p) "")) eqn:Hsecret;
    destruct (negb (String.eqb (Region p) "")) eqn:Hregion; simpl;
    repeat match goal with
           | H : negb _ = true |- _ => apply eqb_empty_false in H
           | H : negb _ = false |- _ =>
               apply negb_false_iff, String.eqb_eq in H
           end;
    split_and!; try (by intros ? [= <-]); try done;
    try (split; [done|]); try (split; [|done]); try tauto;
    try (intros _; tauto); try (intros [?|?]; done).
Qed.

(** ** GraphDefinition *)

Lemma declares_insert (graphdef : gmap string mp.Graphs) key g k :
  declares (<[key := g]> graphdef) k →
  k ∈ map mp.Name (mp.GraphMetrics g) ∨ declares graphdef k.
Proof.
  intros (key' & g' & Hlookup & Hin).
  apply lookup_insert_Some in Hlookup as [[_ <-]|[_ Hlookup]]; [by left|right].
  by exists key', g'.
Qed.

Lemma declares_empty k : ¬ declares ∅ k.
Proof. intros (key & g & Hlookup & _). by rewrite lookup_empty in Hlookup. Qed.

(** X11: whatever the prefix, [GraphDefinition] has two graphs, and the
    metric names it declares are exactly the six output names; so every key
    of a record that [FetchMetrics] returns is declared in a graph, and the
    internal total key is not. *)
Theorem GraphDefinition_declares_outputs {C} `{CloudWatchAPI C}
    (strings_Title : string → string) (p : LambdaPlugin) :
  size (GraphDefinition strings_Title p) = 2%nat ∧
  (∀ k, declares (GraphDefinition strings_Title p) k ↔
        k ∈ ["invocations_success"; "invocations_error"; "invocations_throttles";
             "duration_avg"; "duration_max"; "duration_min"]) ∧
  (∀ (s : Sys C) rec err s' k,
     FetchMetrics p s = (Val (rec, err), s') → is_Some (rec !! k) →
     declares (GraphDefinition strings_Title p) k).
Proof.
  assert (Hiff : ∀ k, declares (GraphDefinition strings_Title p) k ↔ k ∈ output_names).
  { intros k. unfold GraphDefinition, output_names. split.
    - intros Hd. apply declares_insert in Hd as [Hin|Hd];
        [simpl in Hin; in_list Hin; list_mem|].
      apply declares_insert in Hd as [Hin|Hd];
        [simpl in Hin; in_list Hin; list_mem|].
      by apply declares_empty in Hd.
    - intros Hin.
      in_list Hin;
        [exists "invocations"|exists "invocations"|exists "invocations"
        |exists "duration"|exists "duration"|exists "duration"];
        eexists; (split; [reflexivity|simpl; list_mem]). }
  split_and!; [done|done|].
  intros s rec err s' k Hrun [x Hk]. apply Hiff.
  by destruct (FetchMetrics_keys _ _ _ _ _ Hrun _ _ Hk).
Qed.

Lemma GraphDefinition_declares_outputs_witness :
  declares (GraphDefinition (λ prefix, prefix) (mkPlugin "myFunction" "lambda" "" "" ""))
    "invocations_throttles".
Proof.
  apply (proj2 (proj2 (GraphDefinition_declares_outputs (C := script) (λ prefix, prefix)
                         (mkPlugin "myFunction" "lambda" "" "" "")))
           (start [answer []; answer []; answer [sumPoint 3 (time.mkTime 900)]] 1000)
           (<["invocations_throttles" := Float64 3]> ∅) None
           (FetchMetrics (mkPlugin "myFunction" "lambda" "" "" "")
              (start [answer []; answer []; answer [sumPoint 3 (time.mkTime 900)]] 1000)).2).
  - vm_compute. reflexivity.
  - by eexists.
Defined.

Lemma prepare_config_witness :
  ∃ config,
    prepare (inl tt) (mkPlugin "myFunction" "lambda" "AKIDEXAMPLE" "" "ap-northeast-1") None
      = (Some (cloudwatch_New tt [config]), None) ∧
    (aws.Credentials config = None ↔ "AKIDEXAMPLE" = "" ∨ "" = "") ∧
    (∀ creds, aws.Credentials config = Some creds →
       creds = aws.NewStaticCredentials "AKIDEXAMPLE" "" "") ∧
    (aws.Region config = None ↔ "ap-northeast-1" = "") ∧
    (∀ region, aws.Region config = Some region → region = "ap-northeast-1").
Proof.
  exact (prepare_config (inl tt)
           (mkPlugin "myFunction" "lambda" "AKIDEXAMPLE" "" "ap-northeast-1") None).
Defined.

(** ** The command of src/unnamed/part_000 *)

Lemma v2_metricsGroups_names met k :
  met ∈ v2.metricsGroups → k ∈ map MackerelName (Metrics met) →
  k ∈ ["invocations_total"; "invocations_error"; "invocations_throttles";
       "duration_avg"; "duration_max"; "duration_min"].
Proof.
  unfold v2.metricsGroups. intros Hmet Hk.
  in_list Hmet; simpl in Hk; in_list Hk; list_mem.
Qed.

(** X12: every key of a record that the command's [FetchMetrics] returns
    is one of its six names, with the total under [invocations_total] and
    no success key, holds a [float64], and is declared by the command's
    [GraphDefinition]; the error returned with it is nil. *)
Theorem v2_FetchMetrics_keys {C} `{CloudWatchAPI C}
    (strings_Title : string → string) (p : LambdaPlugin) (s : Sys C) rec err s' :
  v2.FetchMetrics p s = (Val (rec, err), s') →
  err = None ∧
  ∀ k x, rec !! k = Some x →
    k ∈ ["invocations_total"; "invocations_error"; "invocations_throttles";
         "duration_avg"; "duration_max"; "duration_min"] ∧
    (∃ f, x = Float64 f) ∧
    declares (v2.GraphDefinition strings_Title p) k.
Proof.
  unfold v2.FetchMetrics, mbind, M_bind.
  destruct (fetchLoop (FunctionName p) ∅ v2.metricsGroups s) as [[stat|] s1] eqn:Hloop;
    [|done].
  intros [= <- <- <-]. split; [done|]. intros k x Hk.
  apply fetchLoop_inv in Hloop as (oks & fails & Hperm & _ & _ & Hkeys).
  destruct (Hkeys k x Hk) as [Hk0|(met & Hok & Hname & Hf)].
  { by rewrite lookup_empty in Hk0. }
  assert (Hin : k ∈ ["invocations_total"; "invocations_error"; "invocations_throttles";
                     "duration_avg"; "duration_max"; "duration_min"]).
  { apply (v2_metricsGroups_names met); [|done]. rewrite Hperm. apply elem_of_app. by left. }
  split_and!; [done..|]. unfold v2.GraphDefinition.
  in_list Hin;
    [exists "invocations"|exists "invocations"|exists "invocations"
    |exists "duration"|exists "duration"|exists "duration"];
    eexists; (split; [reflexivity|simpl; list_mem]).
Qed.

Lemma v2_FetchMetrics_keys_witness :
  let p := mkPlugin "myFunction" "lambda" "" "" "" in
  let s := start [answer [sumPoint 150 (time.mkTime 900)];
                  answer [sumPoint 30 (time.mkTime 900)]] 1000 in
  let rec : gmap string any :=
    <["invocations_total" := Float64 150]> (<["invocations_error" := Float64 30]> ∅) in
  (None : option error) = None ∧
  ∀ k x, rec !! k = Some x →
    k ∈ ["invocations_total"; "invocations_error"; "invocations_throttles";
         "duration_avg"; "duration_max"; "duration_min"] ∧
    (∃ f, x = Float64 f) ∧
    declares (v2.GraphDefinition (λ prefix, prefix) p) k.
Proof.
  intros p s rec.
  apply (v2_FetchMetrics_keys (λ prefix, prefix) p s rec None (v2.FetchMetrics p s).2).
  vm_compute. reflexivity.
Defined.

(** ** The command of src/aws-lambda.go *)







(** ** The library against the command of src/unnamed/part_000 *)

Lemma library_name_inj k k' :
  k ∈ command_names → k' ∈ command_names → library_name k = library_name k' → k = k'.
Proof.
  unfold command_names. intros Hk Hk'.
  in_list Hk; in_list Hk'; first [reflexivity | discriminate].
Qed.

Lemma statistic_library_metric typ : statistic (library_metric typ) = statistic typ.
Proof. done. Qed.

Lemma mergeLoop_renamed types : ∀ (a b : gmap string any) v,
  Forall (λ typ, MackerelName typ ∈ command_names) types →
  renamed a b →
  both renamed (mergeLoop a v types) (mergeLoop b v (map library_metric types)).
Proof.
  induction types as [|typ types IH]; intros a b v Hnames Hab; simpl; [done|].
  apply Forall_cons in Hnames as [Hname Hnames].
  rewrite !mergeStat_statistic, statistic_library_metric.
  destruct (statistic typ) as [f|]; [|by apply IH].
  unfold storeField. destruct v as [d|]; [|done].
  destruct (f d) as [x|]; [|done]. simpl. apply IH; [done|].
  intros k Hk. destruct (decide (MackerelName typ = k)) as [<-|Hne].
  - by rewrite !lookup_insert_eq.
  - rewrite !lookup_insert_ne; [by apply Hab|done|].
    intros Heq. apply Hne. by apply library_name_inj.
Qed.

Lemma statisticsInput_library_group now functionName met :
  statisticsInput now functionName (library_group met) = statisticsInput now functionName met.
Proof.
  unfold statisticsInput, library_group; simpl. f_equal.
  rewrite List.map_map. by apply List.map_ext.
Qed.

Lemma fetchGroup_renamed {C} `{CloudWatchAPI C} functionName met a b (sa sb : Sys C) :
  Forall (λ typ, MackerelName typ ∈ command_names) (Metrics met) →
  same_world sa sb → renamed a b →
  same_world (fetchGroup functionName a met sa).2
             (fetchGroup functionName b (library_group met) sb).2 ∧
  both renamed (fetchGroup functionName a met sa).1
               (fetchGroup functionName b (library_group met) sb).1.
Proof.
  intros Hnames (Hcw & Hclock & Hticks & Hsent & Hlog) Hab.
  rewrite !fetchGroup_run, !getLastPointFromCloudWatch_run; simpl.
  rewrite statisticsInput_library_group, <- Hcw, <- Hclock, <- Hticks.
  destruct (of_answer _) as [[v [e|]]|]; simpl.
  - split; [|done]. unfold same_world, log_names; simpl.
    rewrite !map_app. simpl. unfold log_names in Hlog. rewrite Hlog, Hsent.
    split_and!; congruence.
  - pose proof (mergeLoop_renamed (Metrics met) a b v Hnames Hab) as Hmerge.
    unfold mergeStatsFromDatapoint. simpl. split; [|done].
    unfold same_world, log_names; simpl. unfold log_names in Hlog. rewrite Hsent.
    split_and!; congruence.
  - split; [|done].
    unfold same_world, log_names; simpl. unfold log_names in Hlog. rewrite Hsent.
    split_and!; congruence.
Qed.

Lemma fetchLoop_renamed {C} `{CloudWatchAPI C} functionName mets :
  Forall (λ met, Forall (λ typ, MackerelName typ ∈ command_names) (Metrics met)) mets →
  ∀ a b (sa sb : Sys C), same_world sa sb → renamed a b →
  same_world (fetchLoop functionName a mets sa).2
             (fetchLoop functionName b (map library_group mets) sb).2 ∧
  both renamed (fetchLoop functionName a mets sa).1
               (fetchLoop functionName b (map library_group mets) sb).1.
Proof.
  induction 1 as [|met mets Hnames _ IH]; intros a b sa sb Hworld Hab; simpl; [done|].
  unfold mbind, M_bind.
  destruct (fetchGroup_renamed functionName met a b sa sb Hnames Hworld Hab)
    as [Hworld1 Hres1].
  destruct (fetchGroup functionName a met sa) as [[a1|] sa1];
    destruct (fetchGroup functionName b (library_group met) sb) as [[b1|] sb1];
    simpl in *; try done.
  by apply IH.
Qed.

(** X14: from the same state, the library's [FetchMetrics] and the
    command's send the same requests, take the same clock readings, leave
    the client in the same state, log the same failures and panic in the
    same runs.  When they return, the library's record has the command's
    values for the error, throttle and duration keys, and in place of
    [invocations_total] it has [invocations_success]: the total minus the
    error count, or the total when the error count is missing, and no such
    key when the total is missing. *)
Theorem library_refines_command {C} `{CloudWatchAPI C} (p : LambdaPlugin) (s : Sys C) :
  same_world (v2.FetchMetrics p s).2 (FetchMetrics p s).2 ∧
  both (λ old new : gmap string any * option error,
          old.2 = None ∧ new.2 = None ∧
          (∀ k, k ∈ ["invocations_error"; "invocations_throttles";
                     "duration_avg"; "duration_max"; "duration_min"] →
                new.1 !! k = old.1 !! k) ∧
          new.1 !! "TEMPORARY_invocations_total" = None ∧
          new.1 !! "invocations_success" =
            match old.1 !! "invocations_total", old.1 !! "invocations_error" with
            | Some (Float64 totalCount), Some (Float64 errorCount) =>
                Some (Float64 (totalCount - errorCount)%float)
            | Some (Float64 totalCount), _ => Some (Float64 totalCount)
            | _, _ => None
            end)
       (v2.FetchMetrics p s).1 (FetchMetrics p s).1.
Proof.
  assert (Hnames : Forall (λ met, Forall (λ typ, MackerelName typ ∈ command_names)
                                    (Metrics met)) v2.metricsGroups).
  { unfold v2.metricsGroups, command_names. repeat constructor; simpl; list_mem. }
  assert (Hworld : same_world s s) by done.
  assert (Hempty : renamed ∅ ∅) by (intros k _; by rewrite !lookup_empty).
  destruct (fetchLoop_renamed (FunctionName p) v2.metricsGroups Hnames ∅ ∅ s s Hworld Hempty)
    as [Hworld' Hboth].
  change (map library_group v2.metricsGroups) with metricsGroups in *.
  unfold FetchMetrics, v2.FetchMetrics, mbind, M_bind.
  destruct (fetchLoop (FunctionName p) ∅ v2.metricsGroups s) as [[a|] sa];
    destruct (fetchLoop (FunctionName p) ∅ metricsGroups s) as [[b|] sb] eqn:Hloop;
    simpl in *; try done.
  split; [done|]. split_and!; [done..| | |].
  - intros k Hk. rewrite TransformMetrics_other by (in_list Hk; done).
    assert (Hk' : k ∈ command_names) by (unfold command_names; in_list Hk; list_mem).
    rewrite <- (Hboth k Hk'). by in_list Hk.
  - apply fetchLoop_metricsGroups in Hloop as (Hfl & _).
    destruct (TransformMetrics b !! "TEMPORARY_invocations_total") as [x|] eqn:Hk;
      [exfalso|done].
    by apply TransformMetrics_lookup in Hk as [[?|[? _]] _].
  - apply fetchLoop_metricsGroups in Hloop as (Hfl & _ & fails & _ & _ & Hkeys).
    assert (Hnone : b !! success_key = None).
    { destruct (b !! success_key) as [x|] eqn:Hk; [exfalso|done].
      destruct (Hkeys _ _ Hk) as [Hin _]. unfold group_names in Hin.
      in_list Hin; discriminate. }
    rewrite <- (Hboth "invocations_total") by (unfold command_names; list_mem).
    rewrite <- (Hboth "invocations_error") by (unfold command_names; list_mem).
    change (library_name "invocations_total") with total_key.
    change (library_name "invocations_error") with error_key.
    unfold TransformMetrics. fold success_key.
    destruct (b !! total_key) as [[t| | |]|]; simpl; try done.
    rewrite lookup_delete_ne by done.
    destruct (b !! error_key) as [[e| | |]|]; simpl; by rewrite lookup_insert_eq.
Qed.

Example library_and_command_on_one_run :
  let p := mkPlugin "myFunction" "lambda" "" "" "" in
  let s := start [answer [sumPoint 150 (time.mkTime 900)];
                  answer [sumPoint 30 (time.mkTime 900)];
                  answer []] 1000 in
  (v2.FetchMetrics p s).1
    = Val (<["invocations_total" := Float64 150]>
             (<["invocations_error" := Float64 30]> ∅), None) ∧
  (FetchMetrics p s).1
    = Val (<["invocations_success" := Float64 120]>
             (<["invocations_error" := Float64 30]> ∅), None) ∧
  log_names (v2.FetchMetrics p s).2 = log_names (FetchMetrics p s).2.
Proof. vm_compute. done. Qed.

(** ** MetricKeyPrefix and prepare of src/aws-lambda.go *)

(** The first command's [MetricKeyPrefix] never answers with the empty
    string, and agrees with the library's on every non-empty prefix. *)
Lemma v1_MetricKeyPrefix_default (p : v1.LambdaPlugin) :
  v1.MetricKeyPrefix p ≠ "" ∧
  (v1.Prefix p = "" → v1.MetricKeyPrefix p = "lambda") ∧
  (v1.Prefix p ≠ "" →
   v1.MetricKeyPrefix p = MetricKeyPrefix (mkPlugin (v1.Name p) (v1.Prefix p) "" "" (v1.Region p))).
Proof.
  unfold v1.MetricKeyPrefix, MetricKeyPrefix; simpl.
  destruct (String.eqb (v1.Prefix p) "") eqn:Hp; simpl.
  - apply String.eqb_eq in Hp. split_and!; [done|done|congruence].
  - apply String.eqb_neq in Hp. split_and!; [done|congruence|done].
Qed.

Example v1_prepare_without_region :
  v1.prepare (inl tt) (v1.mkPlugin "myFunction" "lambda" "") None
  = (Some (cloudwatch_New tt []), None).
Proof. reflexivity. Qed.

Example v1_prepare_with_region :
  v1.prepare (inl tt) (v1.mkPlugin "myFunction" "lambda" "ap-northeast-1") None
  = (Some (cloudwatch_New tt [aws.mkConfig None (Some "ap-northeast-1")]), None).
Proof. reflexivity. Qed.
